(** * themed_print: the highlighter, the theme, print and show_status

    A shallow embedding of [themed_print/main.py] and
    [themed_print/config.py].

    The repository is glue over two libraries: Python's [re] module and
    [rich].  The parts of these libraries that the repository drives are
    modelled in the modules [Re] (a backtracking matcher for the regular
    expression constructs that occur in the source), [Rich]
    ([Text.highlight_regex] and [RegexHighlighter.highlight]), [Markup]
    ([markup.escape] and the tag scanner) and [RichConsole] (the console's
    render-hook stack, [Console.print] and the status context manager). *)

From Stdlib Require Import NArith ZArith Lia List String Ascii Bool.
From stdpp Require Import base option list strings gmap.

Local Open Scope string_scope.
Local Open Scope nat_scope.

(** ** Text as a sequence of code points *)

(** A Python [str] is a sequence of Unicode code points; [codes] reads a
    literal of this file as such a sequence. *)
Definition codes (s : string) : list N :=
  map N_of_ascii (list_ascii_of_string s).

Definition code (a : ascii) : N := N_of_ascii a.

(** ** Python's [re]: the constructs used by the source *)

Module Re.

(** A character set: a literal, [.], a bracket expression or a class
    escape. *)
Definition cset := N -> bool.

Definition chr (a : ascii) : cset := fun c => N.eqb c (code a).
Definition range (a b : ascii) : cset :=
  fun c => N.leb (code a) c && N.leb c (code b).
Definition union (p q : cset) : cset := fun c => p c || q c.
Definition compl (p : cset) : cset := fun c => negb (p c).
Definition one_of (s : string) : cset := fun c => existsb (N.eqb c) (codes s).

(** [.] without DOTALL: anything but a line feed. *)
Definition dot : cset := fun c => negb (N.eqb c 10).

(** The class escapes of a [str] pattern are Unicode aware.  On the ASCII
    range they are given exactly: [\s] is tab, line feed, vertical tab,
    form feed, carriage return, the four separators 28 to 31 and the
    space; [\d] is 0-9; [\w] is a letter, a digit or the underscore.  Code
    points from 128 on are put in none of the three classes, so the model
    is exact on ASCII text and approximate beyond it. *)
Definition space : cset :=
  fun c => (N.leb 9 c && N.leb c 13) || (N.leb 28 c && N.leb c 32).
Definition digit : cset := range "0" "9".
Definition word : cset :=
  union (range "a" "z") (union (range "A" "Z") (union digit (chr "_"))).

Inductive regex : Type :=
| Empty
| Set_ (cs : cset)
| Cat (r1 r2 : regex)
| Or (r1 r2 : regex)
| Maybe (r : regex)
| Repeat (greedy : bool) (lo : nat) (cs : cset)
| Group (idx : nat) (name : option string) (r : regex)
| Ahead (r : regex)
| NotBehind (cs : cset)
| Bol
| Boundary.

(** [Repeat greedy lo cs] is [cs*] (lo = 0) or [cs+] (lo = 1), lazy when
    [greedy] is false: every repetition in the source is over a single
    character set.  [Maybe r] is the greedy [r?].  [Group] carries the
    group's number and, for [(?P<name>...)], its name.  [Ahead] is
    [(?=r)], [NotBehind cs] is the one-character [(?<![...])], [Bol] is
    [^] without MULTILINE and [Boundary] is [\b]. *)

Fixpoint lit_codes (l : list N) : regex :=
  match l with
  | [] => Empty
  | [c] => Set_ (N.eqb c)
  | c :: l' => Cat (Set_ (N.eqb c)) (lit_codes l')
  end.

Definition lit (s : string) : regex := lit_codes (codes s).

Fixpoint cat (l : list regex) : regex :=
  match l with
  | [] => Empty
  | [r] => r
  | r :: l' => Cat r (cat l')
  end.

(** Group number to the span it matched last. *)
Definition caps := list (nat * (nat * nat)).

Fixpoint group_span (c : caps) (i : nat) : option (nat * nat) :=
  match c with
  | [] => None
  | (j, sp) :: c' => if Nat.eqb i j then Some sp else group_span c' i
  end.

(** The matcher is written in continuation-passing style: the state is
    the position, the character before it and the text from it on; the
    continuation is the rest of the pattern.  [None] is failure and makes
    the caller try its next choice, which is backtracking; captures are
    passed along, so a failed branch leaves none behind. *)
Definition result := option (nat * caps).
Definition kont := nat -> option N -> list N -> caps -> result.

Definition is_word (o : option N) : bool :=
  match o with Some c => word c | None => false end.

Definition stop_here (lo pos : nat) (prev : option N) (rest : list N)
    (c : caps) (k : kont) : result :=
  match lo with
  | O => k pos prev rest c
  | S _ => None
  end.

Fixpoint rep_greedy (cs : cset) (lo pos : nat) (prev : option N)
    (rest : list N) (c : caps) (k : kont) {struct rest} : result :=
  match rest with
  | x :: rest' =>
      if cs x then
        match rep_greedy cs (pred lo) (S pos) (Some x) rest' c k with
        | Some r => Some r
        | None => stop_here lo pos prev rest c k
        end
      else stop_here lo pos prev rest c k
  | [] => stop_here lo pos prev rest c k
  end.

Fixpoint rep_lazy (cs : cset) (lo pos : nat) (prev : option N)
    (rest : list N) (c : caps) (k : kont) {struct rest} : result :=
  match stop_here lo pos prev rest c k with
  | Some r => Some r
  | None =>
      match rest with
      | x :: rest' =>
          if cs x then rep_lazy cs (pred lo) (S pos) (Some x) rest' c k
          else None
      | [] => None
      end
  end.

Fixpoint run (r : regex) (pos : nat) (prev : option N) (rest : list N)
    (c : caps) (k : kont) {struct r} : result :=
  match r with
  | Empty => k pos prev rest c
  | Set_ cs =>
      match rest with
      | x :: rest' => if cs x then k (S pos) (Some x) rest' c else None
      | [] => None
      end
  | Cat r1 r2 =>
      run r1 pos prev rest c
        (fun pos' prev' rest' c' => run r2 pos' prev' rest' c' k)
  | Or r1 r2 =>
      match run r1 pos prev rest c k with
      | Some x => Some x
      | None => run r2 pos prev rest c k
      end
  | Maybe r1 =>
      match run r1 pos prev rest c k with
      | Some x => Some x
      | None => k pos prev rest c
      end
  | Repeat true lo cs => rep_greedy cs lo pos prev rest c k
  | Repeat false lo cs => rep_lazy cs lo pos prev rest c k
  | Group i _ r1 =>
      run r1 pos prev rest c
        (fun pos' prev' rest' c' => k pos' prev' rest' ((i, (pos, pos')) :: c'))
  | Ahead r1 =>
      match run r1 pos prev rest c (fun p _ _ c' => Some (p, c')) with
      | Some (_, c') => k pos prev rest c'
      | None => None
      end
  | NotBehind cs =>
      match prev with
      | Some x => if cs x then None else k pos prev rest c
      | None => k pos prev rest c
      end
  | Bol =>
      match pos with
      | O => k pos prev rest c
      | S _ => None
      end
  | Boundary =>
      if xorb (is_word prev) (is_word (head rest))
      then k pos prev rest c else None
  end.

(** The end of the pattern.  A scanner that has just returned an empty
    match sets [must_advance]: the next match may not be empty at the
    position it starts from. *)
Definition accept (must_advance : bool) (start : nat) : kont :=
  fun pos _ _ c =>
    if must_advance && Nat.eqb pos start then None else Some (pos, c).

(** A match object: [span()] and the spans of the groups. *)
Record match_ : Type := Match { m_start : nat; m_end : nat; m_caps : caps }.

Definition match_at (r : regex) (must_advance : bool) (pos : nat)
    (prev : option N) (rest : list N) : option match_ :=
  match run r pos prev rest [] (accept must_advance pos) with
  | Some (e, c) => Some (Match pos e c)
  | None => None
  end.

(** The matches that start at [pos], when the scanner tries [pos], and the
    length of the last of them.  After an empty match the scanner tries
    the same position once more with [must_advance] set. *)
Definition attempt (r : regex) (pos : nat) (prev : option N)
    (rest : list N) : list match_ * nat :=
  match match_at r false pos prev rest with
  | None => ([], 0)
  | Some m =>
      if Nat.eqb (m_end m) pos then
        match match_at r true pos prev rest with
        | None => ([m], 0)
        | Some m' => ([m; m'], m_end m' - pos)
        end
      else ([m], m_end m - pos)
  end.

(** [finditer]: the non-overlapping matches from left to right.  [skip]
    counts the positions still covered by the last match. *)
Fixpoint scan (r : regex) (skip pos : nat) (prev : option N)
    (rest : list N) {struct rest} : list match_ :=
  match skip with
  | S skip' =>
      match rest with
      | x :: rest' => scan r skip' (S pos) (Some x) rest'
      | [] => []
      end
  | O =>
      let a := attempt r pos prev rest in
      fst a ++
      match rest with
      | x :: rest' => scan r (pred (snd a)) (S pos) (Some x) rest'
      | [] => []
      end
  end.

Definition finditer (r : regex) (s : list N) : list match_ :=
  scan r 0 0 None s.

(** [pattern.groupindex]: the named groups with their numbers, in the
    order of the pattern. *)
Fixpoint groupindex (r : regex) : list (string * nat) :=
  match r with
  | Cat r1 r2 | Or r1 r2 => groupindex r1 ++ groupindex r2
  | Maybe r1 | Ahead r1 => groupindex r1
  | Group i (Some n) r1 => (n, i) :: groupindex r1
  | Group _ None r1 => groupindex r1
  | _ => []
  end.

End Re.

(** ** rich: spans, [Text.highlight_regex] and [RegexHighlighter] *)

Module Rich.

(** [rich.text.Span]: a style name over [start, end). *)
Record Span : Type := mkSpan { sp_start : nat; sp_end : nat; sp_style : string }.

(** The spans one match adds: for every named group that took part in the
    match and is not empty, a span whose style is the prefix followed by
    the group's name. *)
Definition match_spans (style_prefix : string) (index : list (string * nat))
    (m : Re.match_) : list Span :=
  flat_map
    (fun ni : string * nat =>
       match Re.group_span (Re.m_caps m) (snd ni) with
       | Some (s, e) =>
           if Nat.ltb s e then [mkSpan s e (style_prefix ++ fst ni)] else []
       | None => []
       end)
    index.

(** [Text.highlight_regex(re_highlight, style_prefix=...)], called without
    a style for the whole match: the spans it appends to the text. *)
Definition highlight_regex (re_highlight : Re.regex) (style_prefix : string)
    (plain : list N) : list Span :=
  flat_map (match_spans style_prefix (Re.groupindex re_highlight))
    (Re.finditer re_highlight plain).

(** [RegexHighlighter.highlight]: one [highlight_regex] per entry of
    [highlights], in order, each with the class's [base_style]. *)
Definition highlight (highlights : list Re.regex) (base_style : string)
    (plain : list N) : list Span :=
  flat_map (fun re => highlight_regex re base_style plain) highlights.

(** [RegexHighlighter.base_style], the default a subclass inherits. *)
Definition RegexHighlighter_base_style : string := "".

End Rich.

(** ** main.py: [DTypeRegexHighlighter] *)

Module DTypeRegexHighlighter.
Import Re.

(** The class attribute the source assigns.  Its name is [base_stype]: the
    attribute [highlight] reads, [base_style], is not assigned by the
    class and keeps the value inherited from [RegexHighlighter]. *)
Definition base_stype : string := "dtype.".
Definition base_style : string := Rich.RegexHighlighter_base_style.

Definition quote1 : N := 39.   (* the single quote *)
Definition quote2 : N := 34.   (* the double quote *)
Definition backslash : N := 92.

Definition upper_ : cset := union (range "A" "Z") (chr "_").
Definition A_to_z : cset := range "A" "z".
Definition digit09 : cset := range "0" "9".
Definition hexdigit : cset :=
  union digit09 (union (range "a" "f") (range "A" "F")).
Definition alnum : cset :=
  union (range "a" "z") (union (range "A" "Z") digit09).
Definition not_space : cset := compl space.

(** (?P<CONSTANT> ( \s [A-Z_]* (?=[\s,]) ) ) *)
Definition re_constant : regex :=
  Group 1 (Some "CONSTANT")
    (Group 2 None
       (cat [Set_ space; Repeat true 0 upper_;
             Ahead (Set_ (union space (chr ",")))])).

(** The source's patterns are quoted in verbose form, with blanks between
    their parts and [ ] for a blank of the pattern.

    One alternative of the STR rule: b? Q .*? (?<!\\) Q, where Q is the
    quote [q] written [n] times. *)
Definition quoted (q : N) (n : nat) : regex :=
  cat [Maybe (Set_ (chr "b")); lit_codes (repeat q n); Repeat false 0 dot;
       NotBehind (N.eqb backslash); lit_codes (repeat q n)].

(** (?<![\\\w]) (?P<STR> b? Q3 .*? (?<!\\) Q3 | b? Q1 .*? (?<!\\) Q1
                           | b? D3 .*? (?<!\\) D3 | b? D1 .*? (?<!\\) D1 )
    with Q1 the single quote, Q3 three of them, D1 the double quote and D3
    three of them. *)
Definition re_str : regex :=
  Cat (NotBehind (union (N.eqb backslash) word))
    (Group 1 (Some "STR")
       (Or (quoted quote1 3)
          (Or (quoted quote1 1) (Or (quoted quote2 3) (quoted quote2 1))))).

(** (?P<NUMBER> (?<!\w) \-? [0-9]+ \.? [0-9]* ( e [-+]? \d+? )? \b
                | 0x [0-9a-fA-F]* ) *)
Definition re_number : regex :=
  Group 1 (Some "NUMBER")
    (Or
       (cat [NotBehind word; Maybe (Set_ (chr "-")); Repeat true 1 digit09;
             Maybe (Set_ (chr ".")); Repeat true 0 digit09;
             Maybe (Group 2 None
                      (cat [Set_ (chr "e"); Maybe (Set_ (one_of "-+"));
                            Repeat false 1 digit]));
             Boundary])
       (Cat (lit "0x") (Repeat true 0 hexdigit))).

(** (?P<TRUE> True ), (?P<FALSE> False ), (?P<NONE> None ) *)
Definition re_true : regex := Group 1 (Some "TRUE") (lit "True").
Definition re_false : regex := Group 1 (Some "FALSE") (lit "False").
Definition re_none : regex := Group 1 (Some "NONE") (lit "None").

(** (?P<ENUM> [A-z]* \. [A-Z_]* (?=:) ) *)
Definition re_enum : regex :=
  Group 1 (Some "ENUM")
    (cat [Repeat true 0 A_to_z; Set_ (chr "."); Repeat true 0 upper_;
          Ahead (Set_ (chr ":"))]).

(** (?P<DATACLASS_NAME> [A-z]* (?=\() ) *)
Definition re_dataclass_name : regex :=
  Group 1 (Some "DATACLASS_NAME")
    (Cat (Repeat true 0 A_to_z) (Ahead (Set_ (chr "(")))).

(** (?P<DICT_KEY> Q1 .* Q1 ) : [ ] *)
Definition re_dict_key : regex :=
  Cat
    (Group 1 (Some "DICT_KEY")
       (cat [Set_ (N.eqb quote1); Repeat true 0 dot; Set_ (N.eqb quote1)]))
    (lit ": ").

(** (?P<PUNCTUATION> [^\w\s\d] ) *)
Definition re_punctuation : regex :=
  Group 1 (Some "PUNCTUATION")
    (Set_ (compl (union word (union space digit)))).

(** ^ \[ (?P<HOUR> 2[0-3] | [01][0-9] ) \: (?P<MINUTE> [0-5][0-9] ) \:
    (?P<SECOND> [0-5][0-9] ) \] *)
Definition re_timestamp : regex :=
  cat [Bol; Set_ (chr "[");
       Group 1 (Some "HOUR")
         (Or (Cat (Set_ (chr "2")) (Set_ (range "0" "3")))
             (Cat (Set_ (one_of "01")) (Set_ digit09)));
       Set_ (chr ":");
       Group 2 (Some "MINUTE") (Cat (Set_ (range "0" "5")) (Set_ digit09));
       Set_ (chr ":");
       Group 3 (Some "SECOND") (Cat (Set_ (range "0" "5")) (Set_ digit09));
       Set_ (chr "]")].

(** <function [ ] (?P<FUNCTION_NAME> [^\s]+ ) [ ] at [ ]
    (?P<HEX_ADDRESS> [a-zA-Z0-9]+ ) > *)
Definition re_function : regex :=
  cat [lit "<function ";
       Group 1 (Some "FUNCTION_NAME") (Repeat true 1 not_space);
       lit " at ";
       Group 2 (Some "HEX_ADDRESS") (Repeat true 1 alnum);
       lit ">"].

(** < (?P<INSTANCE_CLS> [^\s]+ ) [ ] object [ ] at [ ]
    (?P<HEX_ADDRESS> [a-zA-Z0-9]+ ) > *)
Definition re_instance : regex :=
  cat [lit "<";
       Group 1 (Some "INSTANCE_CLS") (Repeat true 1 not_space);
       lit " object at ";
       Group 2 (Some "HEX_ADDRESS") (Repeat true 1 alnum);
       lit ">"].

(** <class [ ] Q1 (?P<CLASS> [\w\.]+ ) Q1 > *)
Definition re_class : regex :=
  cat [lit "<class "; Set_ (N.eqb quote1);
       Group 1 (Some "CLASS") (Repeat true 1 (union word (chr ".")));
       Set_ (N.eqb quote1); lit ">"].

(** <module [ ] Q1 (?P<MODULE> [^\s]+ ) Q1 *)
Definition re_module : regex :=
  cat [lit "<module "; Set_ (N.eqb quote1);
       Group 1 (Some "MODULE") (Repeat true 1 not_space);
       Set_ (N.eqb quote1)].

(** from [ ] Q1 (?P<MODULE_FROM> [^\s]+ ) Q1 > *)
Definition re_module_from : regex :=
  cat [lit "from "; Set_ (N.eqb quote1);
       Group 1 (Some "MODULE_FROM") (Repeat true 1 not_space);
       Set_ (N.eqb quote1); lit ">"].

Definition highlights : list regex :=
  [re_constant; re_str; re_number; re_true; re_false; re_none; re_enum;
   re_dataclass_name; re_dict_key; re_punctuation; re_timestamp;
   re_function; re_instance; re_class; re_module; re_module_from].

(** [HIGHLIGHTER(text)]: the spans the highlighter puts on a text. *)
Definition highlight (plain : list N) : list Rich.Span :=
  Rich.highlight highlights base_style plain.

(** The style names the highlighter can produce: its base style followed
    by the name of a named group of one of its rules. *)
Definition tags : list string := map fst (flat_map groupindex highlights).
Definition style_names : list string := map (fun n => base_style ++ n) tags.

End DTypeRegexHighlighter.

(** ** config.py: [DEFAULT_THEME] *)

(** [rich.theme.Theme(styles, inherit)]: the mapping from style name to
    style definition.  With [inherit] the library's default styles lie
    under the given ones. *)
Record Theme : Type := mkTheme { inherit : bool; styles : gmap string string }.

Definition theme_styles (defaults : gmap string string) (t : Theme) :
    gmap string string :=
  if inherit t then styles t ∪ defaults else styles t.

Definition DEFAULT_THEME : Theme :=
  mkTheme true
    (list_to_map
       [("CONSTANT", "#ff9b54");
        ("STR", "sea_green2 bold");
        ("NUMBER", "sky_blue1 bold");
        ("TRUE", "#C5D86D bold");
        ("FALSE", "#D8829D bold");
        ("DICT_KEY", "#94a3b8 bold");
        ("PUNCTUATION", "grey39");
        ("ENUM", "#cdb4db");
        ("NONE", "#ffbd00 bold");
        ("DATACLASS_NAME", "#c77dff");
        ("HOUR", "dark_slate_gray1");
        ("MINUTE", "dark_slate_gray1");
        ("SECOND", "dark_slate_gray1");
        ("FUNCTION_NAME", "green1 bold");
        ("INSTANCE_CLS", "medium_spring_green");
        ("CLASS", "gold3 bold");
        ("MODULE", "orange3");
        ("MODULE_FROM", "orange3");
        ("HEX_ADDRESS", "dodger_blue1")]).

(** The tag names the specification lists. *)
Definition listed_tags : list string :=
  ["CONSTANT"; "STR"; "NUMBER"; "TRUE"; "FALSE"; "NONE"; "ENUM";
   "DATACLASS_NAME"; "DICT_KEY"; "PUNCTUATION"; "HOUR"; "MINUTE"; "SECOND";
   "FUNCTION_NAME"; "HEX_ADDRESS"; "INSTANCE_CLS"; "CLASS"; "MODULE";
   "MODULE_FROM"].

Definition themed (n : string) : bool :=
  bool_decide (is_Some (styles DEFAULT_THEME !! n)).

(** ** rich.markup: [escape] and the tag scanner *)

Module Markup.
Import Re.

Definition slice (s : list N) (a b : nat) : list N := take (b - a) (drop a s).

(** [match.group(i)]; a group that took no part in the match is [None] in
    Python and the empty text here (both groups of the patterns below
    take part in every match). *)
Definition group_text (s : list N) (m : match_) (i : nat) : list N :=
  match group_span (m_caps m) i with
  | Some (a, b) => slice s a b
  | None => []
  end.

(** [pattern.sub(repl, s)] for a pattern that matches no empty text. *)
Fixpoint sub_from (repl : match_ -> list N) (s : list N) (pos : nat)
    (ms : list match_) : list N :=
  match ms with
  | [] => drop pos s
  | m :: ms' =>
      slice s pos (m_start m) ++ repl m ++ sub_from repl s (m_end m) ms'
  end.

Definition sub (r : regex) (repl : match_ -> list N) (s : list N) : list N :=
  sub_from repl s 0 (finditer r s).

Definition backslash : N := 92.
Definition tag_start : cset := union (range "a" "z") (one_of "#/@").
Definition not_open : cset := compl (chr "[").

(** ( \\* ) ( \[ [a-z#/@] [^[]*? ] ) *)
Definition re_escape : regex :=
  Cat (Group 1 None (Repeat true 0 (N.eqb backslash)))
    (Group 2 None
       (cat [Set_ (chr "["); Set_ tag_start; Repeat false 0 not_open;
             Set_ (chr "]")])).

Definition escape_backslashes (s : list N) (m : match_) : list N :=
  group_text s m 1 ++ group_text s m 1 ++ [backslash] ++ group_text s m 2.

Definition endswith (s suffix : list N) : bool :=
  bool_decide (drop (length s - length suffix) s = suffix).

(** [rich.markup.escape] *)
Definition escape (markup : list N) : list N :=
  let markup := sub re_escape (escape_backslashes markup) markup in
  if endswith markup [backslash] && negb (endswith markup [backslash; backslash])
  then markup ++ [backslash]
  else markup.

(** ( ( \\* ) \[ ( [a-z#/@] [^[]*? ) ] ), the pattern RE_TAGS *)
Definition RE_TAGS : regex :=
  Group 1 None
    (cat [Group 2 None (Repeat true 0 (N.eqb backslash)); Set_ (chr "[");
          Group 3 None (Cat (Set_ tag_start) (Repeat false 0 not_open));
          Set_ (chr "]")]).

(** What [_parse] yields: literal text or a tag. *)
Inductive token : Type :=
| TText (text : list N)
| TTag (tag_text : list N).

(** [rich.markup._parse], the positions it yields left out. *)
Fixpoint parse_from (markup : list N) (position : nat) (ms : list match_) :
    list token :=
  match ms with
  | [] =>
      if Nat.ltb position (length markup)
      then [TText (drop position markup)] else []
  | m :: ms' =>
      let full_text := group_text markup m 1 in
      let escapes := group_text markup m 2 in
      let tag_text := group_text markup m 3 in
      let before :=
        if Nat.ltb position (m_start m)
        then [TText (slice markup position (m_start m))] else [] in
      let backslashes := Nat.div (length escapes) 2 in
      let escaped := Nat.modulo (length escapes) 2 in
      let literal :=
        match backslashes with
        | O => []
        | S _ => [TText (repeat backslash backslashes)]
        end in
      match escaped with
      | S _ =>
          before ++ literal ++ [TText (drop (length escapes) full_text)] ++
          parse_from markup (m_end m) ms'
      | O =>
          before ++ literal ++ [TTag tag_text] ++
          parse_from markup (m_end m) ms'
      end
  end.

Definition _parse (markup : list N) : list token :=
  parse_from markup 0 (finditer RE_TAGS markup).

Definition is_tag (t : token) : bool :=
  match t with TTag _ => true | TText _ => false end.

End Markup.

(** ** Python values, exceptions and the console *)

(** An exception: its type and its message. *)
Inductive exn : Type := Exn (type_ msg : string).

#[local] Set Warnings "-register-all".

(** The values the functions of [main.py] are called with.  An instance
    carries its class name, its attributes and what its [__rich__] method
    does when the console renders it: [None] when it has no such method
    (or the method returns), [Some e] when the method raises [e]. *)
Inductive pyval : Type :=
| VNone
| VBool (b : bool)
| VInt (n : Z)
| VStr (s : list N)
| VList (items : list pyval)
| VText (plain : list N)
| VPretty (indent_size : Z) (indent_guides : bool) (obj : pyval)
| VObject (cls : string) (attrs : list (string * pyval)) (rich : option exn).

(** [isinstance(v, str)] *)
Definition isinstance_str (v : pyval) : bool :=
  match v with VStr _ => true | _ => false end.

(** [v is False]: identity with the one [False] object. *)
Definition is_False (v : pyval) : bool :=
  match v with VBool false => true | _ => false end.

Fixpoint assoc (name : string) (attrs : list (string * pyval)) : option pyval :=
  match attrs with
  | [] => None
  | (n, v) :: attrs' => if String.eqb name n then Some v else assoc name attrs'
  end.

(** [getattr(v, name, default)].  Only an instance has attributes a caller
    can have set; the built-in values have no attribute called
    [_show_status]. *)
Definition getattr (v : pyval) (name : string) (default : pyval) : pyval :=
  match v with
  | VObject _ attrs _ =>
      match assoc name attrs with Some a => a | None => default end
  | _ => default
  end.

(** What the console renders. *)
Inductive renderable : Type :=
| RText (markup : list Markup.token)
| RPretty (indent_size : Z) (indent_guides : bool) (obj : pyval)
| RPlain (obj : pyval).

(** [class _PrettyIndentHook(RenderHook)] *)
Record _PrettyIndentHook : Type :=
  mkPrettyIndentHook { indent_size : Z; indent_guides : bool }.

(** The render hooks of a console: the hook of [main.py] and the live
    display of a status, which registers itself as a hook while it is
    shown. *)
Inductive RenderHook : Type :=
| IndentHook (h : _PrettyIndentHook)
| LiveHook (status : pyval) (spinner : string).

(** [_PrettyIndentHook.process_renderables] *)
Definition process_renderables (self : _PrettyIndentHook)
    (renderables : list renderable) : list renderable :=
  map
    (fun item =>
       match item with
       | RPretty _ _ obj => RPretty (indent_size self) (indent_guides self) obj
       | _ => item
       end)
    renderables.

Definition hook_process (h : RenderHook) (renderables : list renderable) :
    list renderable :=
  match h with
  | IndentHook self => process_renderables self renderables
  | LiveHook _ _ => renderables
  end.

(** What the console has done, in order. *)
Inductive event : Type :=
| Printed (renderables : list renderable) (sep end_ : list N)
    (style : option string)
| StatusStarted (status : pyval) (spinner : string)
| StatusStopped.

(** The process-wide console: its stack of render hooks (the last one is
    the top) and what it has written. *)
Record Console : Type :=
  mkConsole { _render_hooks : list RenderHook; written : list event }.

Inductive outcome (A : Type) : Type :=
| Returns (a : A)
| Raises (e : exn).
Arguments Returns {A} a.
Arguments Raises {A} e.

(** A computation on the console that returns or raises. *)
Definition M (A : Type) : Type := Console -> outcome A * Console.

Definition ret {A} (a : A) : M A := fun c => (Returns a, c).
Definition raise {A} (e : exn) : M A := fun c => (Raises e, c).
Definition bind {A B} (m : M A) (k : A -> M B) : M B :=
  fun c =>
    match m c with
    | (Returns a, c') => k a c'
    | (Raises e, c') => (Raises e, c')
    end.

#[global] Instance M_ret : MRet M := @ret.
#[global] Instance M_bind : MBind M := fun A B k m => bind m k.

(** [with enter: body], for a context manager whose [__exit__] returns
    [None]: [leave] runs whether [body] returns or raises, and what the
    body raised is raised again. *)
Definition with_ {A} (enter leave : Console -> Console) (body : M A) : M A :=
  fun c =>
    match body (enter c) with
    | (r, c') => (r, leave c')
    end.

Module RichConsole.

(** [Console.push_render_hook] *)
Definition push_render_hook (hook : RenderHook) : M unit :=
  fun c => (Returns tt, mkConsole (_render_hooks c ++ [hook]) (written c)).

(** [Console.pop_render_hook]: [list.pop()] raises on an empty list. *)
Definition pop_render_hook : M unit :=
  fun c =>
    match _render_hooks c with
    | [] => (Raises (Exn "IndexError" "pop from empty list"), c)
    | _ :: _ => (Returns tt, mkConsole (removelast (_render_hooks c)) (written c))
    end.

(** [Console._collect_renderables], one object: [rich_cast] calls the
    object's [__rich__]; a str is rendered as console markup; a container
    is wrapped in a fresh [Pretty] with the defaults of that class. *)
Definition collect (v : pyval) : outcome renderable :=
  match v with
  | VStr s => Returns (RText (Markup._parse s))
  | VPretty i g obj => Returns (RPretty i g obj)
  | VList items => Returns (RPretty 4 false (VList items))
  | VObject _ _ (Some e) => Raises e
  | _ => Returns (RPlain v)
  end.

Fixpoint collect_renderables (objects : list pyval) : outcome (list renderable) :=
  match objects with
  | [] => Returns []
  | v :: objects' =>
      match collect v with
      | Raises e => Raises e
      | Returns r =>
          match collect_renderables objects' with
          | Raises e => Raises e
          | Returns rs => Returns (r :: rs)
          end
      end
  end.

(** [Console.print] with objects, [sep], [end] and [style]: the renderables are
    collected, every hook of the stack processes them in turn, and the
    result is written.  When collecting raises nothing is written. *)
Definition console_print (objects : list pyval) (sep end_ : list N)
    (style : option string) : M unit :=
  fun c =>
    match collect_renderables objects with
    | Raises e => (Raises e, c)
    | Returns rs =>
        (Returns tt,
         mkConsole (_render_hooks c)
           (written c ++
            [Printed (fold_left (fun rs h => hook_process h rs) (_render_hooks c) rs)
               sep end_ style]))
    end.

(** Entering [Console.status(status, spinner=...)]: the live display is
    started and registers itself as a render hook. *)
Definition status_start (status : pyval) (spinner : string) (c : Console) :
    Console :=
  mkConsole (_render_hooks c ++ [LiveHook status spinner])
    (written c ++ [StatusStarted status spinner]).

(** Leaving it: the live display pops the top render hook and stops. *)
Definition status_stop (c : Console) : Console :=
  mkConsole (removelast (_render_hooks c)) (written c ++ [StatusStopped]).

End RichConsole.

(** ** main.py: [format_timestamp], [print] and [show_status] *)

Import RichConsole.

(** The time of day of a [datetime]. *)
Record datetime : Type := mkTime { hour : nat; minute : nat; second : nat }.

Definition valid_time (t : datetime) : Prop :=
  hour t < 24 /\ minute t < 60 /\ second t < 60.

Definition two_digits (n : nat) : list N :=
  [(48 + N.of_nat (n / 10))%N; (48 + N.of_nat (n mod 10))%N].

(** [input_datetime.strftime("[%X]")] in the C locale. *)
Definition strftime_X (t : datetime) : list N :=
  codes "[" ++ two_digits (hour t) ++ codes ":" ++ two_digits (minute t) ++
  codes ":" ++ two_digits (second t) ++ codes "]".

(** [format_timestamp]: the text and the spans the highlighter puts on
    it. *)
Definition format_timestamp (highlighter_ : list N -> list Rich.Span)
    (input_datetime : datetime) : list N * list Rich.Span :=
  let formatted := strftime_X input_datetime in
  (formatted, highlighter_ formatted).

Definition HIGHLIGHTER : list N -> list Rich.Span :=
  DTypeRegexHighlighter.highlight.
Definition format_timestamp_ : datetime -> list N * list Rich.Span :=
  format_timestamp HIGHLIGHTER.

(** The list [to_print] of [print]. *)
Definition to_print (content : list pyval) : list pyval :=
  map
    (fun cnt =>
       match cnt with
       | VStr s => VStr (Markup.escape s)
       | _ => cnt
       end)
    content.

(** [print] with the positional arguments [content] and the options
    [indent], [show_guideline], [sep] and [end]; [print_defaults] has the
    options' default values. *)
Definition print (content : list pyval) (indent : Z) (show_guideline : bool)
    (sep end_ : list N) : M unit :=
  let hook := mkPrettyIndentHook indent show_guideline in
  push_render_hook (IndentHook hook) ;;
  console_print (to_print content) sep end_ None ;;
  pop_render_hook.

Definition print_defaults (content : list pyval) : M unit :=
  print content 4 true (codes " ") [10%N].

(** A wrapped function: positional arguments, keyword arguments, and a
    computation that may use the console. *)
Definition pyfunc : Type := list pyval -> list (string * pyval) -> M pyval.

(** [should_log] of [run_as_status] *)
Definition should_log (args : list pyval) : pyval :=
  match args with
  | instance :: _ => getattr instance "_show_status" (VBool true)
  | [] => VBool true
  end.

(** A status or exit message: [str | Text]. *)
Inductive message : Type :=
| MStr (s : list N)
| MText (plain : list N).

Definition msg_val (m : message) : pyval :=
  match m with
  | MStr s => VStr s
  | MText t => VText t
  end.

(** [run_as_status], the closure [show_status] returns for [func]; the
    keyword arguments handed on to [Console.status] are left out. *)
Definition run_as_status (status_message exit_message : message)
    (exit_message_style spinner : string) (func : pyfunc) : pyfunc :=
  fun args kwargs =>
    if is_False (should_log args) then
      function_output ← func args kwargs;
      mret function_output
    else
      function_output ←
        with_ (status_start (msg_val status_message) spinner) status_stop
          (func args kwargs);
      console_print [msg_val exit_message] (codes " ") [10%N]
        (Some exit_message_style);;
      mret function_output.

(** [show_status(status_message, exit_message, exit_message_style,
    spinner)], applied to [func]. *)
Definition show_status (status_message : message)
    (exit_message : option message) (exit_message_style spinner : string)
    (func : pyfunc) : pyfunc :=
  let exit_message :=
    match exit_message with
    | None => status_message
    | Some m => m
    end in
  run_as_status status_message exit_message exit_message_style spinner func.

(** * What the theorems are stated with *)

Import Re Rich DTypeRegexHighlighter.
Local Open Scope list_scope.

(** ** Reading the spans *)

(** The spans that carry the tag [tag], as pairs (start, end), in the order
    the highlighter added them. *)
Definition tagged (tag : string) (spans : list Span) : list (nat * nat) :=
  map (fun sp => (sp_start sp, sp_end sp))
    (List.filter (fun sp => String.eqb (sp_style sp) tag) spans).







(** ** The lines of the testable properties *)

Definition const_line : list N := codes "CONST_NAME = 'value'".
Definition dict_line : list N := codes "{'key': 1}".
Definition digit_in_string_line : list N := codes "'1' 2 True".

(** ** Scanning a line *)

(** The character before the position reached after [pre]. *)
Definition prev_after (prev : option N) (pre : list N) : option N :=
  match last pre with
  | Some x => Some x
  | None => prev
  end.

(** No match of [r] starts at a character that satisfies [P]. *)
Definition fails_at (r : regex) (P : N -> bool) : Prop :=
  forall must pos prev x rest,
    P x = true -> match_at r must pos prev (x :: rest) = None.

(** ** Bracketed times *)

Definition is_digit (c : N) : bool := N.leb 48 c && N.leb c 57.

(** The number two digit characters write. *)
Definition two_digit (d1 d2 : N) : N := (10 * (d1 - 48) + (d2 - 48))%N.

(** The token: an opening bracket, HH, a colon, MM, a colon, SS and a
    closing bracket. *)
Definition bracketed_time (h1 h2 m1 m2 s1 s2 : N) : list N :=
  [91; h1; h2; 58; m1; m2; 58; s1; s2; 93]%N.

Definition time_in_range (h1 h2 m1 m2 s1 s2 : N) : Prop :=
  (two_digit h1 h2 <= 23 /\ two_digit m1 m2 <= 59 /\ two_digit s1 s2 <= 59)%N.

(** The three tags on the components of a token that starts at [p]. *)
Definition timestamp_spans (p : nat) : list Span :=
  [mkSpan (p + 1) (p + 3) "HOUR"; mkSpan (p + 4) (p + 6) "MINUTE";
   mkSpan (p + 7) (p + 9) "SECOND"].

(** The spans the timestamp rule alone puts on a line. *)
Definition timestamp_rule_spans (line : list N) : list Span :=
  highlight_regex re_timestamp base_style line.

(** The groups of a match of the timestamp rule. *)
Definition ts_caps : caps := [(3, (7, 9)); (2, (4, 6)); (1, (1, 3))].

(** ** Value lines *)







(** A character that stands for itself inside a quoted string: not a
    single quote, a backslash, a line feed, a digit, a minus sign or one
    of the capitals T, F and N. *)
Definition plain (c : N) : bool :=
  negb (N.eqb c 39 || N.eqb c 92 || N.eqb c 10 || digit09 c || N.eqb c 45
        || N.eqb c 84 || N.eqb c 70 || N.eqb c 78).


(** ** Calls of print and show_status *)

(** An object whose [__rich__] method raises. *)
Definition broken : pyval :=
  VObject "Broken" [] (Some (Exn "RuntimeError" "cannot render")).

Definition empty_console : Console := mkConsole [] [].


(** How the console lays out a message. *)
Definition msg_renderable (m : message) : renderable :=
  match m with
  | MStr s => RText (Markup._parse s)
  | MText t => RPlain (VText t)
  end.

(** The exit message [show_status] settles on. *)
Definition exit_or_status (status_message : message)
    (exit_message : option message) : message :=
  match exit_message with
  | None => status_message
  | Some m => m
  end.

(** A function that writes a line and returns 7, and one that raises. *)
Definition seven : pyfunc :=
  fun _ _ => console_print [VInt 1] (codes " ") [10%N] None;; mret (VInt 7).
Definition failing : pyfunc :=
  fun _ _ => raise (Exn "ValueError" "no").

(** Instances whose [_show_status] is [False] and 0. *)
Definition quiet_job : pyval := VObject "Job" [("_show_status", VBool false)] None.
Definition zero_flag_job : pyval := VObject "Job" [("_show_status", VInt 0)] None.

(** ** Proof steps *)

Ltac unfold_console :=
  unfold print_defaults, print, show_status, run_as_status, with_, mbind,
    M_bind, mret, M_ret, bind, ret, push_render_hook, pop_render_hook,
    console_print, status_start, status_stop in *;
  cbn [_render_hooks written] in *.

(** One case split on a character test or on the text that is left. *)
Ltac split_test :=
  match goal with
  | |- context [N.eqb ?a ?b] => destruct (N.eqb_spec a b)
  | |- context [N.leb ?a ?b] => destruct (N.leb_spec0 a b)
  | |- context [match ?l with [] => _ | _ :: _ => _ end] => is_var l; destruct l
  end.

Ltac split_tests := repeat (split_test; cbn [andb orb negb Nat.eqb]).

(** ** Bounds, order and shapes of spans; hooks and markup *)

(** The captures start at or after [lo], end at or before [total] and
    are not reversed. *)
Definition caps_ok (lo total : nat) (c : caps) : Prop :=
  Forall
    (fun g : nat * (nat * nat) =>
       lo <= fst (snd g) /\ fst (snd g) <= snd (snd g) /\ snd (snd g) <= total)
    c.

(** A continuation that, called at or after [from] in a text that ends at
    [total], ends the match within the text and keeps the captures in
    bounds. *)
Definition good (lo from total : nat) (k : kont) : Prop :=
  forall pos prev rest c res,
    from <= pos -> pos + length rest = total -> caps_ok lo total c ->
    k pos prev rest c = Some res ->
    pos <= fst res /\ fst res <= total /\ caps_ok lo total (snd res).

(** A match within a text of length [total]. *)
Definition match_ok (total : nat) (m : match_) : Prop :=
  m_start m <= m_end m /\ m_end m <= total /\
  caps_ok (m_start m) total (m_caps m).

(** A rule that has a group named by the tag [t]. *)
Definition has_tag (t : string) (r : regex) : bool :=
  existsb (fun name => String.eqb (base_style ++ name)%string t)
    (map fst (groupindex r)).





(** A pattern whose lookaheads are single character sets, so that no
    group lies inside a lookahead. *)
Fixpoint ahead_simple (r : regex) : bool :=
  match r with
  | Cat r1 r2 | Or r1 r2 => ahead_simple r1 && ahead_simple r2
  | Maybe r1 | Group _ _ r1 => ahead_simple r1
  | Ahead (Set_ _) => true
  | Ahead _ => false
  | _ => true
  end.

(** The captures lie between [lo] and [hi] and are not reversed. *)
Definition caps_within (lo hi : nat) (c : caps) : Prop :=
  Forall
    (fun g : nat * (nat * nat) =>
       lo <= fst (snd g) /\ fst (snd g) <= snd (snd g) /\ snd (snd g) <= hi)
    c.

(** A continuation that keeps the captures before the end of the match. *)
Definition tight (lo from : nat) (k : kont) : Prop :=
  forall pos prev rest c res,
    from <= pos -> caps_within lo pos c ->
    k pos prev rest c = Some res ->
    pos <= fst res /\ caps_within lo (fst res) (snd res).

(** A match whose groups lie inside it. *)
Definition match_tight (m : match_) : Prop :=
  m_start m <= m_end m /\ caps_within (m_start m) (m_end m) (m_caps m).

(** Matches one behind the other, none before [from], each with its groups
    inside it. *)
Fixpoint chain (from : nat) (ms : list match_) : Prop :=
  match ms with
  | [] => True
  | m :: ms' => from <= m_start m /\ match_tight m /\ chain (m_end m) ms'
  end.

(** Spans one behind the other, none empty and none before [from]. *)
Fixpoint apart (from : nat) (l : list (nat * nat)) : Prop :=
  match l with
  | [] => True
  | (s, e) :: l' => from <= s /\ s < e /\ apart e l'
  end.

(** The tag [t] names at most one group of the pattern. *)
Definition names_once (t : string) (r : regex) : bool :=
  Nat.leb
    (length
       (List.filter (fun name => String.eqb (base_style ++ name)%string t)
          (map fst (groupindex r))))
    1.

(** The tags that one rule only produces: all but HEX_ADDRESS, which the
    rules for functions and for instances share. *)
Definition single_rule_tags : list string :=
  ["CONSTANT"; "STR"; "NUMBER"; "TRUE"; "FALSE"; "NONE"; "ENUM";
   "DATACLASS_NAME"; "DICT_KEY"; "PUNCTUATION"; "HOUR"; "MINUTE"; "SECOND";
   "FUNCTION_NAME"; "INSTANCE_CLS"; "CLASS"; "MODULE"; "MODULE_FROM"].

(** The character class of the CLASS rule: a word character or a dot. *)
Definition class_path_char : cset := union word (chr ".").

(** A class representation: [<class 'PATH'>]. *)
Definition class_repr (path : list N) : list N :=
  codes "<class '" ++ path ++ codes "'>".




(** A printable ASCII character other than the blank. *)
Definition visible (c : N) : bool := N.ltb 32 c && N.ltb c 127.

(** The representation of a function: [<function NAME at ADDRESS>]. *)
Definition function_repr (name addr : list N) : list N :=
  codes "<function " ++ name ++ codes " at " ++ addr ++ codes ">".

(** The representation of an instance: [<CLS object at ADDRESS>]. *)
Definition instance_repr (cls addr : list N) : list N :=
  codes "<" ++ cls ++ codes " object at " ++ addr ++ codes ">".

(** The start of the representation of a module: [<module 'NAME' ...]. *)
Definition module_repr (name rest : list N) : list N :=
  codes "<module '" ++ name ++ codes "' " ++ rest.

(** The first exception the console meets when it collects the objects:
    that of the first instance whose [__rich__] raises. *)
Fixpoint first_rich_error (content : list pyval) : option exn :=
  match content with
  | [] => None
  | VObject _ _ (Some e) :: _ => Some e
  | _ :: content' => first_rich_error content'
  end.

(** What [print] makes the console lay out for one positional argument
    whose [__rich__] does not raise. *)
Definition laid_out (v : pyval) : renderable :=
  match v with
  | VStr s => RText (Markup._parse (Markup.escape s))
  | VPretty i g obj => RPretty i g obj
  | VList items => RPretty 4 false (VList items)
  | _ => RPlain v
  end.



(** A function that prints and returns [v]. *)
Definition printing (content : list pyval) (indent : Z) (show_guideline : bool)
    (v : pyval) : pyfunc :=
  fun _ _ => print content indent show_guideline (codes " ") [10%N];; mret v.

(** The test at the end of [escape]: the text ends with a backslash but
    not with two. *)
Definition ends_in_one_backslash (s : list N) : bool :=
  Markup.endswith s [Markup.backslash]
  && negb (Markup.endswith s [Markup.backslash; Markup.backslash]).

(** A character that is neither an opening bracket nor a backslash. *)
Definition quiet (c : N) : bool := negb (N.eqb c 91) && negb (N.eqb c 92).

(** A character a tag may hold: neither bracket. *)
Definition inside_tag (c : N) : bool := negb (N.eqb c 91) && negb (N.eqb c 93).

(** A markup tag: an opening bracket, the tag's text and a closing
    bracket. *)
Definition bracketed (tag : list N) : list N := [91%N] ++ tag ++ [93%N].

(** What [_parse] yields for a text, when it is not empty. *)
Definition text_token (s : list N) : list Markup.token :=
  match s with
  | [] => []
  | _ => [Markup.TText s]
  end.

(** * Theorems *)

(** ** The theme covers the highlighter's tags *)

(** C9.  The named groups of the highlighter's rules are the nineteen
    listed tags, and each of them has an entry in the styles of
    [DEFAULT_THEME] under the style name the highlighter produces for it.
    That name is the bare tag: the prefix [highlight] reads is the
    inherited empty [base_style].  The inherited default styles of the
    library do not take the entry away. *)
Theorem highlighter_tags_have_theme_entries :
  Forall (fun n => n ∈ listed_tags) DTypeRegexHighlighter.tags /\
  Forall (fun n => n ∈ DTypeRegexHighlighter.tags) listed_tags /\
  Forall
    (fun n =>
       (DTypeRegexHighlighter.base_style ++ n)%string = n /\
       exists style,
         styles DEFAULT_THEME !! (DTypeRegexHighlighter.base_style ++ n)%string
           = Some style /\
         forall defaults,
           theme_styles defaults DEFAULT_THEME
             !! (DTypeRegexHighlighter.base_style ++ n)%string = Some style)
    DTypeRegexHighlighter.tags.
Proof.
  split; [|split].
  - apply Forall_forall. intros n Hn. apply list_elem_of_In.
    apply list_elem_of_In in Hn. vm_compute in Hn. vm_compute.
    intuition (subst; tauto).
  - apply Forall_forall. intros n Hn. apply list_elem_of_In.
    apply list_elem_of_In in Hn. vm_compute in Hn. vm_compute.
    intuition (subst; tauto).
  - assert (Hb : forallb themed DTypeRegexHighlighter.style_names = true)
      by (vm_compute; reflexivity).
    apply Forall_forall. intros n Hn. split; [reflexivity|].
    rewrite forallb_forall in Hb.
    assert (Ht : themed (DTypeRegexHighlighter.base_style ++ n)%string = true).
    { apply Hb. unfold DTypeRegexHighlighter.style_names.
      apply in_map. apply list_elem_of_In. exact Hn. }
    unfold themed in Ht. apply bool_decide_eq_true in Ht.
    destruct Ht as [style Hs]. exists style. split; [exact Hs|].
    intros defaults. unfold theme_styles. simpl inherit.
    apply lookup_union_Some_l. exact Hs.
Qed.

(** ** The highlighter on the lines of the testable properties *)

(** The line of C4 and where its two tokens stand. *)
Lemma const_line_tokens :
  Markup.slice const_line 0 10 = codes "CONST_NAME" /\
  Markup.slice const_line 13 20 = codes "'value'".
Proof. split; reflexivity. Qed.

(** C4, as stated, fails: on the line [CONST_NAME = 'value'] the span of
    CONST_NAME, which is 0 to 10, is not tagged CONSTANT. *)
Lemma const_name_at_line_start_not_constant :
  ~ (In (0, 10) (tagged "CONSTANT" (DTypeRegexHighlighter.highlight const_line)) /\
     In (13, 20) (tagged "STR" (DTypeRegexHighlighter.highlight const_line)) /\
     ~ In (13, 20) (tagged "DICT_KEY" (DTypeRegexHighlighter.highlight const_line))).
Proof. vm_compute. intros [H _]. exact H. Qed.

(** C4, amended.  On the line [CONST_NAME = 'value'] the highlighter tags
    the span of ['value'] as STR and tags nothing as DICT_KEY; it tags
    nothing as CONSTANT either, because the CONSTANT rule starts with a
    white-space character and CONST_NAME stands at the start of the line.
    With a blank before it, the blank and CONST_NAME together, 0 to 11,
    are tagged CONSTANT. *)
Theorem const_line_tags :
  tagged "CONSTANT" (DTypeRegexHighlighter.highlight const_line) = [] /\
  tagged "STR" (DTypeRegexHighlighter.highlight const_line) = [(13, 20)] /\
  tagged "DICT_KEY" (DTypeRegexHighlighter.highlight const_line) = [] /\
  tagged "CONSTANT"
    (DTypeRegexHighlighter.highlight (codes " " ++ const_line)%list) = [(0, 11)].
Proof. repeat split; vm_compute; reflexivity. Qed.

(** C5.  On the line [{'key': 1}] the span of ['key'], which is 1 to 6
    and is followed by a colon and a blank, is tagged DICT_KEY, and the
    span of [1], which is 8 to 9, is tagged NUMBER; no other span gets
    either tag. *)
Theorem dict_line_tags :
  Markup.slice dict_line 1 6 = codes "'key'" /\
  Markup.slice dict_line 6 8 = codes ": " /\
  Markup.slice dict_line 8 9 = codes "1" /\
  tagged "DICT_KEY" (DTypeRegexHighlighter.highlight dict_line) = [(1, 6)] /\
  tagged "NUMBER" (DTypeRegexHighlighter.highlight dict_line) = [(8, 9)].
Proof. repeat split; vm_compute; reflexivity. Qed.

(** The line of the counterexample to C6: a quoted string, then a number,
    then True. *)
Lemma digit_in_string_line_tokens :
  digit_in_string_line
    = (codes "'1'" ++ codes " " ++ codes "2" ++ codes " " ++ codes "True")%list /\
  tagged "STR" (DTypeRegexHighlighter.highlight digit_in_string_line) = [(0, 3)] /\
  tagged "NUMBER" (DTypeRegexHighlighter.highlight digit_in_string_line)
    = [(1, 2); (4, 5)] /\
  tagged "TRUE" (DTypeRegexHighlighter.highlight digit_in_string_line) = [(6, 10)].
Proof. repeat split; vm_compute; reflexivity. Qed.


(** ** print *)

Lemma hooks_after_push (l : list RenderHook) (h : RenderHook) :
  removelast (l ++ [h]) = l.
Proof. apply removelast_last. Qed.



(** C1 fails in the code: [print] has no [try ... finally].  When
    [CONSOLE.print] raises, [pop_render_hook] is not reached: the
    exception leaves [print] and the hook stays on top of the console's
    stack, nothing having been written. *)
Theorem print_leaves_hook_when_console_raises (content : list pyval)
    (indent : Z) (show_guideline : bool) (sep end_ : list N) (c : Console)
    (e : exn) :
  collect_renderables (to_print content) = Raises e ->
  print content indent show_guideline sep end_ c =
    (Raises e,
     mkConsole
       (_render_hooks c ++ [IndentHook (mkPrettyIndentHook indent show_guideline)])
       (written c)).
Proof.
  intros He. unfold_console. rewrite He. reflexivity.
Qed.

Lemma print_leaves_hook_witness :
  collect_renderables (to_print [broken])
    = Raises (Exn "RuntimeError" "cannot render") /\
  print [broken] 8 true (codes " ") [10%N] empty_console =
    (Raises (Exn "RuntimeError" "cannot render"),
     mkConsole [IndentHook (mkPrettyIndentHook 8 true)] []).
Proof.
  split; [reflexivity|].
  apply (print_leaves_hook_when_console_raises [broken] 8 true (codes " ")
           [10%N] empty_console (Exn "RuntimeError" "cannot render")).
  reflexivity.
Defined.

(** The options of the failed call persist: a later [CONSOLE.print] of a
    list, which would be laid out with the defaults 4 and no guides, is
    laid out with the indent 8 and the guides of the failed [print]. *)
Lemma leaked_hook_changes_later_prints :
  written (snd (console_print [VList []] (codes " ") [10%N] None empty_console))
    = [Printed [RPretty 4 false (VList [])] (codes " ") [10%N] None] /\
  written
    (snd (console_print [VList []] (codes " ") [10%N] None
            (snd (print [broken] 8 true (codes " ") [10%N] empty_console))))
    = [Printed [RPretty 8 true (VList [])] (codes " ") [10%N] None].
Proof. split; reflexivity. Qed.





(** ** show_status *)

Lemma collect_message (m : message) :
  collect_renderables [msg_val m] = Returns [msg_renderable m].
Proof. destruct m; reflexivity. Qed.

Lemma hooks_keep_message (m : message) (hooks : list RenderHook) :
  fold_left (fun rs h => hook_process h rs) hooks [msg_renderable m]
    = [msg_renderable m].
Proof.
  induction hooks as [|h hooks IH]; [reflexivity|].
  simpl. destruct h as [self|st sp]; destruct m; simpl; exact IH.
Qed.

(** The wrapper skips the display exactly when the call has a first
    positional argument that is an instance whose attribute
    [_show_status] is the object [False]. *)
Lemma should_log_is_False (args : list pyval) :
  is_False (should_log args) = true <->
  exists cls attrs r rest,
    args = VObject cls attrs r :: rest /\
    assoc "_show_status" attrs = Some (VBool false).
Proof.
  split.
  - destruct args as [|instance rest]; [discriminate|].
    destruct instance as [| | | | | | |cls attrs r]; try discriminate. simpl.
    destruct (assoc "_show_status" attrs) as [a|] eqn:Ha; [|discriminate].
    destruct a as [| [|] | | | | | |]; try discriminate.
    intros _. exists cls, attrs, r, rest. split; [reflexivity | exact Ha].
  - intros (cls & attrs & r & rest & -> & Ha). simpl. rewrite Ha. reflexivity.
Qed.

Lemma bind_ret {A} (m : M A) (c : Console) : (x ← m; mret x) c = m c.
Proof.
  unfold mbind, M_bind, mret, M_ret, bind, ret.
  destruct (m c) as [[a|e] c']; reflexivity.
Qed.

(** C3.  When the first positional argument is an instance whose
    [_show_status] attribute is [False], the wrapper is the wrapped
    function on the same arguments: the same outcome, and a console on
    which nothing but the function itself has acted, so no indicator and
    no exit message. *)
Theorem show_status_suppressed (status_message : message)
    (exit_message : option message) (exit_message_style spinner : string)
    (func : pyfunc) (cls : string) (attrs : list (string * pyval))
    (r : option exn) (rest : list pyval) (kwargs : list (string * pyval))
    (c : Console) :
  assoc "_show_status" attrs = Some (VBool false) ->
  show_status status_message exit_message exit_message_style spinner func
    (VObject cls attrs r :: rest) kwargs c
  = func (VObject cls attrs r :: rest) kwargs c.
Proof.
  intros Ha. unfold show_status, run_as_status.
  assert (Hf : is_False (should_log (VObject cls attrs r :: rest)) = true)
    by (apply should_log_is_False; eauto 8).
  rewrite Hf. apply bind_ret.
Qed.

Lemma show_status_suppressed_witness :
  assoc "_show_status" [("_show_status", VBool false)] = Some (VBool false) /\
  show_status (MStr (codes "running")) (Some (MStr (codes "finished")))
    "dark_sea_green1" "dots" seven [quiet_job; VInt 2] [] empty_console
  = (Returns (VInt 7),
     mkConsole [] [Printed [RPlain (VInt 1)] (codes " ") [10%N] None]).
Proof.
  split; [reflexivity|].
  refine (eq_trans
    (show_status_suppressed (MStr (codes "running"))
       (Some (MStr (codes "finished"))) "dark_sea_green1" "dots" seven
       "Job" [("_show_status", VBool false)] None [VInt 2] []
       empty_console _) _);
    reflexivity.
Defined.

(** C2.  When the wrapped function raises, the wrapper raises the same
    exception.  On the path with the indicator the only thing the wrapper
    does after the function is to stop the indicator: the live display's
    hook is popped and nothing is written after the function but the stop,
    so no exit message.  If the function left the hook stack as it found
    it, the stack is as before the call.  On the path without display the
    wrapper does nothing at all. *)
Theorem show_status_propagates_exception (status_message : message)
    (exit_message : option message) (exit_message_style spinner : string)
    (func : pyfunc) (args : list pyval) (kwargs : list (string * pyval))
    (c c1 : Console) (e : exn) :
  func args kwargs
    (if is_False (should_log args) then c
     else status_start (msg_val status_message) spinner c) = (Raises e, c1) ->
  show_status status_message exit_message exit_message_style spinner func
    args kwargs c
  = (Raises e, if is_False (should_log args) then c1 else status_stop c1) /\
  written (if is_False (should_log args) then c1 else status_stop c1)
  = (written c1 ++ if is_False (should_log args) then [] else [StatusStopped])%list /\
  (is_False (should_log args) = false ->
   _render_hooks c1
     = _render_hooks (status_start (msg_val status_message) spinner c) ->
   _render_hooks (status_stop c1) = _render_hooks c).
Proof.
  intros Hf. unfold show_status, run_as_status.
  destruct (is_False (should_log args)) eqn:Hs.
  - split; [|split].
    + rewrite bind_ret. exact Hf.
    + symmetry. apply app_nil_r.
    + discriminate.
  - split; [|split].
    + unfold with_, mbind, M_bind, bind. rewrite Hf. reflexivity.
    + reflexivity.
    + intros _ Hh. unfold status_stop. cbn [_render_hooks]. rewrite Hh.
      unfold status_start. cbn [_render_hooks]. apply hooks_after_push.
Qed.

Lemma show_status_propagates_exception_witness :
  failing [] [] (status_start (VStr (codes "running")) "dots" empty_console)
  = (Raises (Exn "ValueError" "no"),
     mkConsole [LiveHook (VStr (codes "running")) "dots"]
       [StatusStarted (VStr (codes "running")) "dots"]) /\
  show_status (MStr (codes "running")) (Some (MStr (codes "finished")))
    "dark_sea_green1" "dots" failing [] [] empty_console
  = (Raises (Exn "ValueError" "no"),
     mkConsole [] [StatusStarted (VStr (codes "running")) "dots"; StatusStopped]).
Proof.
  split; [reflexivity|].
  apply (show_status_propagates_exception (MStr (codes "running"))
           (Some (MStr (codes "finished"))) "dark_sea_green1" "dots" failing
           [] [] empty_console
           (mkConsole [LiveHook (VStr (codes "running")) "dots"]
              [StatusStarted (VStr (codes "running")) "dots"])
           (Exn "ValueError" "no")).
  reflexivity.
Defined.

(** C10.  Unless the first positional argument is an instance whose
    [_show_status] attribute is the object [False], the wrapper takes the
    path with the display: it starts the indicator, calls the function,
    stops the indicator and, the function having returned, prints the
    exit message in its style and returns the function's value.  (When
    the function raises, the indicator is stopped and the exception goes
    on, as C2 says.) *)
Theorem show_status_shown_unless_False (status_message : message)
    (exit_message : option message) (exit_message_style spinner : string)
    (func : pyfunc) (args : list pyval) (kwargs : list (string * pyval))
    (c : Console) :
  (forall cls attrs r rest,
     args = VObject cls attrs r :: rest ->
     assoc "_show_status" attrs <> Some (VBool false)) ->
  written (status_start (msg_val status_message) spinner c)
  = (written c ++ [StatusStarted (msg_val status_message) spinner])%list /\
  show_status status_message exit_message exit_message_style spinner func
    args kwargs c
  = match func args kwargs (status_start (msg_val status_message) spinner c) with
    | (Returns v, c1) =>
        (Returns v,
         mkConsole (removelast (_render_hooks c1))
           (written c1 ++
            [StatusStopped;
             Printed [msg_renderable (exit_or_status status_message exit_message)]
               (codes " ") [10%N] (Some exit_message_style)]))
    | (Raises e, c1) => (Raises e, status_stop c1)
    end.
Proof.
  intros Hno. split; [reflexivity|].
  assert (Hs : is_False (should_log args) = false).
  { destruct (is_False (should_log args)) eqn:Hs; [|reflexivity].
    apply should_log_is_False in Hs.
    destruct Hs as (cls & attrs & r & rest & Hargs & Ha).
    exfalso. exact (Hno cls attrs r rest Hargs Ha). }
  unfold show_status, run_as_status. rewrite Hs.
  fold (exit_or_status status_message exit_message).
  unfold with_, mbind, M_bind, bind, console_print.
  destruct (func args kwargs (status_start (msg_val status_message) spinner c))
    as [[v|e] c1]; [|reflexivity].
  rewrite collect_message. cbn [_render_hooks written status_stop].
  rewrite hooks_keep_message. unfold mret, M_ret, ret.
  rewrite <- app_assoc. reflexivity.
Qed.

Lemma show_status_shown_unless_False_witness :
  show_status (MStr (codes "running")) None "dark_sea_green1" "dots" seven
    [zero_flag_job] [] empty_console
  = (Returns (VInt 7),
     mkConsole []
       [StatusStarted (VStr (codes "running")) "dots";
        Printed [RPlain (VInt 1)] (codes " ") [10%N] None;
        StatusStopped;
        Printed [RText [Markup.TText (codes "running")]] (codes " ") [10%N]
          (Some "dark_sea_green1")]).
Proof.
  refine (eq_trans
    (proj2 (show_status_shown_unless_False (MStr (codes "running")) None
              "dark_sea_green1" "dots" seven [zero_flag_job] [] empty_console _))
    _).
  - intros cls attrs r rest Hargs Ha. injection Hargs as _ <- _ _.
    discriminate Ha.
  - vm_compute. reflexivity.
Defined.

(** The falsy values that are not [False] do not suppress the display,
    nor does a call without positional arguments or with a first argument
    that has no such attribute. *)
Lemma falsy_flags_do_not_suppress :
  Forall (fun args => is_False (should_log args) = false)
    [[]; [VInt 0]; [VObject "Job" [] None];
     [VObject "Job" [("_show_status", VInt 0)] None];
     [VObject "Job" [("_show_status", VNone)] None];
     [VObject "Job" [("_show_status", VStr [])] None];
     [VObject "Job" [("_show_status", VBool true)] None]] /\
  is_False (should_log [VObject "Job" [("_show_status", VBool false)] None]) = true.
Proof. split; [repeat constructor|reflexivity]. Qed.

(** ** The timestamp rule *)

(** Whatever the line, a match of the timestamp rule at its start spans
    the ten characters of a token and has the groups [ts_caps]. *)
Lemma ts_match_shape (must : bool) (line : list N) :
  match_at re_timestamp must 0 None line = None \/
  match_at re_timestamp must 0 None line = Some (Match 0 10 ts_caps).
Proof.
  unfold match_at, re_timestamp.
  cbv -[N.eqb N.leb].
  split_tests; destruct must; auto.
Qed.

(** The rule matches at no later position. *)
Lemma ts_no_match_after_start (must : bool) (pos : nat) (prev : option N)
    (rest : list N) :
  match_at re_timestamp must (S pos) prev rest = None.
Proof. reflexivity. Qed.

Lemma ts_scan_after_start (rest : list N) :
  forall skip pos prev, scan re_timestamp skip (S pos) prev rest = [].
Proof.
  induction rest as [|x rest IH]; intros [|skip] pos prev; simpl;
    unfold attempt; rewrite ?ts_no_match_after_start; simpl; auto.
Qed.

Lemma ts_finditer (line : list N) :
  finditer re_timestamp line = fst (attempt re_timestamp 0 None line).
Proof.
  unfold finditer. destruct line as [|x line]; cbn [scan]; cbv zeta.
  - apply app_nil_r.
  - rewrite ts_scan_after_start. apply app_nil_r.
Qed.

Lemma ts_spans_of_match :
  flat_map (match_spans base_style (groupindex re_timestamp))
    [Match 0 10 ts_caps] = timestamp_spans 0.
Proof. reflexivity. Qed.

Lemma ts_spans_when (line : list N) :
  timestamp_rule_spans line =
    match match_at re_timestamp false 0 None line with
    | Some _ => timestamp_spans 0
    | None => []
    end.
Proof.
  unfold timestamp_rule_spans, highlight_regex. rewrite ts_finditer.
  unfold attempt.
  destruct (ts_match_shape false line) as [H|H]; rewrite H; reflexivity.
Qed.

(** On a line that starts with a token of digits, the rule matches if
    and only if the time is in range. *)
Lemma ts_leading_match (h1 h2 m1 m2 s1 s2 : N) (post : list N) :
  forallb is_digit [h1; h2; m1; m2; s1; s2] = true ->
  (time_in_range h1 h2 m1 m2 s1 s2 ->
   match_at re_timestamp false 0 None
     (bracketed_time h1 h2 m1 m2 s1 s2 ++ post) = Some (Match 0 10 ts_caps)) /\
  (~ time_in_range h1 h2 m1 m2 s1 s2 ->
   match_at re_timestamp false 0 None
     (bracketed_time h1 h2 m1 m2 s1 s2 ++ post) = None).
Proof.
  unfold time_in_range, two_digit, is_digit. cbn [forallb].
  rewrite !andb_true_iff, !N.leb_le. intros Hd.
  unfold match_at, re_timestamp, bracketed_time.
  cbv -[N.eqb N.leb N.le N.add N.mul N.sub not].
  split; intros Hr; split_tests; try reflexivity; exfalso; lia.
Qed.




Lemma two_digits_ok (n : nat) :
  n < 100 ->
  match two_digits n with
  | [d1; d2] =>
      is_digit d1 = true /\ is_digit d2 = true /\ two_digit d1 d2 = N.of_nat n
  | _ => False
  end.
Proof.
  intros Hn. unfold two_digits, is_digit, two_digit.
  rewrite !andb_true_iff, !N.leb_le.
  pose proof (Nat.div_mod_eq n 10). pose proof (Nat.mod_upper_bound n 10).
  assert (n / 10 < 10) by (apply Nat.Div0.div_lt_upper_bound; lia).
  lia.
Qed.

(** [format_timestamp]: for every time of day the hour, the minute and
    the second of the formatted text carry their tags. *)
Lemma format_timestamp_tags (t : datetime) (sp : Span) :
  valid_time t ->
  In sp (timestamp_spans 0) ->
  In sp (snd (format_timestamp_ t)).
Proof.
  intros (Hh & Hm & Hs) Hsp.
  unfold format_timestamp_, format_timestamp, HIGHLIGHTER, highlight, Rich.highlight.
  cbn [snd]. apply in_flat_map. exists re_timestamp. split.
  { unfold highlights. cbn [In]. tauto. }
  fold (timestamp_rule_spans (strftime_X t)). rewrite ts_spans_when.
  pose proof (two_digits_ok (hour t) ltac:(lia)) as Dh.
  pose proof (two_digits_ok (minute t) ltac:(lia)) as Dm.
  pose proof (two_digits_ok (second t) ltac:(lia)) as Ds.
  unfold strftime_X.
  destruct (two_digits (hour t)) as [|h1 [|h2 [|]]]; try contradiction.
  destruct (two_digits (minute t)) as [|m1 [|m2 [|]]]; try contradiction.
  destruct (two_digits (second t)) as [|s1 [|s2 [|]]]; try contradiction.
  destruct Dh as (? & ? & Vh), Dm as (? & ? & Vm), Ds as (? & ? & Vs).
  change (codes "[" ++ [h1; h2] ++ codes ":" ++ [m1; m2] ++ codes ":" ++
          [s1; s2] ++ codes "]")%list
    with (bracketed_time h1 h2 m1 m2 s1 s2 ++ [])%list.
  assert (Hd : forallb is_digit [h1; h2; m1; m2; s1; s2] = true)
    by (cbn [forallb]; rewrite H, H0, H1, H2, H3, H4; reflexivity).
  rewrite (proj1 (ts_leading_match h1 h2 m1 m2 s1 s2 [] Hd)).
  - exact Hsp.
  - unfold time_in_range. rewrite Vh, Vm, Vs. lia.
Qed.

(** ** Value lines: a quoted string, a number, a constant word *)

(** How [finditer] moves over a line: past characters no match starts at,
    over the characters of a match, and at the end of the text. *)
Section Scan.
Variable r : regex.

Lemma prev_after_cons (prev : option N) (x : N) (pre : list N) :
  prev_after prev (x :: pre) = prev_after (Some x) pre.
Proof.
  unfold prev_after. destruct pre as [|y pre]; [reflexivity|].
  rewrite last_cons. destruct (last (y :: pre)) eqn:E; [reflexivity|].
  apply last_None in E. discriminate.
Qed.

(** Nothing is found in a stretch of characters at which the rule fails. *)
Lemma scan_past (P : N -> bool) (pre rest : list N) :
  fails_at r P ->
  Forall (fun x => P x = true) pre ->
  forall pos prev,
    scan r 0 pos prev (pre ++ rest)
    = scan r 0 (pos + length pre) (prev_after prev pre) rest.
Proof.
  intros Hf Hpre. induction Hpre as [|x pre Hx Hpre IH]; intros pos prev.
  - cbn [app length]. rewrite Nat.add_0_r. reflexivity.
  - cbn [app length scan]. cbv zeta. unfold attempt.
    rewrite (Hf false pos prev x (pre ++ rest) Hx). cbn [fst snd pred app].
    rewrite IH, prev_after_cons. f_equal. lia.
Qed.

(** The characters covered by the last match are passed over. *)
Lemma scan_skip (pre rest : list N) :
  forall pos prev,
    scan r (length pre) pos prev (pre ++ rest)
    = scan r 0 (pos + length pre) (prev_after prev pre) rest.
Proof.
  induction pre as [|x pre IH]; intros pos prev.
  - cbn [app length]. rewrite Nat.add_0_r. reflexivity.
  - cbn [app length scan]. rewrite IH, prev_after_cons. f_equal. lia.
Qed.

(** A match that is not empty is reported and the scan goes on behind it. *)
Lemma scan_hit (pos : nat) (prev : option N) (x : N) (rest : list N)
    (m : match_) (k : nat) :
  match_at r false pos prev (x :: rest) = Some m ->
  m_end m = pos + S k ->
  scan r 0 pos prev (x :: rest) = m :: scan r k (S pos) (Some x) rest.
Proof.
  intros Hm He. cbn [scan]. cbv zeta. unfold attempt. rewrite Hm.
  replace (Nat.eqb (m_end m) pos) with false
    by (symmetry; apply Nat.eqb_neq; lia).
  cbn [fst snd app]. replace (pred (m_end m - pos)) with k by lia.
  reflexivity.
Qed.

Lemma scan_end (pos : nat) (prev : option N) :
  match_at r false pos prev [] = None -> scan r 0 pos prev [] = [].
Proof. intros H. cbn [scan]. cbv zeta. unfold attempt. rewrite H. reflexivity. Qed.

End Scan.



(** *** Repetitions over a run of characters *)

(** A greedy repetition takes a whole run of characters of its set when
    the rest of the pattern matches behind the run. *)
Lemma rep_greedy_all (cs : cset) (ds rest : list N) (c : caps) (k : kont)
    (res : nat * caps) :
  Forall (fun x => cs x = true) ds ->
  forall lo pos prev,
    rep_greedy cs (lo - length ds) (pos + length ds) (prev_after prev ds)
      rest c k = Some res ->
    rep_greedy cs lo pos prev (ds ++ rest) c k = Some res.
Proof.
  intros Hds. induction Hds as [|x ds Hx Hds IH]; intros lo pos prev Hk.
  - cbn [app length] in *. rewrite Nat.sub_0_r, Nat.add_0_r in Hk. exact Hk.
  - cbn [app rep_greedy]. rewrite Hx. rewrite (IH (pred lo) (S pos) (Some x)).
    + reflexivity.
    + rewrite prev_after_cons in Hk. cbn [length] in Hk.
      replace (pred lo - length ds) with (lo - S (length ds)) by lia.
      replace (S pos + length ds) with (pos + S (length ds)) by lia.
      exact Hk.
Qed.

(** A lazy repetition goes on over characters at which the rest of the
    pattern fails. *)
Lemma rep_lazy_past (cs : cset) (body rest : list N) (c : caps) (k : kont) :
  Forall
    (fun x =>
       cs x = true /\ forall pos prev rest c, k pos prev (x :: rest) c = None)
    body ->
  forall pos prev,
    rep_lazy cs 0 pos prev (body ++ rest) c k
    = rep_lazy cs 0 (pos + length body) (prev_after prev body) rest c k.
Proof.
  intros Hb. induction Hb as [|x body [Hx Hk] Hb IH]; intros pos prev.
  - cbn [app length]. rewrite Nat.add_0_r. reflexivity.
  - cbn [app rep_lazy stop_here pred]. rewrite Hk, Hx, IH, prev_after_cons.
    cbn [length]. f_equal. lia.
Qed.


(** *** The NUMBER rule *)





(** *** The STR rule *)







(** *** The three rules on a value line *)




















(** *** From the matches to the spans *)



Lemma match_spans_style (prefix : string) (index : list (string * nat))
    (m : match_) (sp : Span) :
  In sp (match_spans prefix index m) ->
  exists name, In name (map fst index) /\ sp_style sp = (prefix ++ name)%string.
Proof.
  unfold match_spans. intros H. apply in_flat_map in H.
  destruct H as ([name i] & Hin & Hsp). exists name. split.
  - apply in_map_iff. exists (name, i). split; [reflexivity | exact Hin].
  - cbn [fst snd] in Hsp.
    destruct (group_span (m_caps m) i) as [[s e]|]; [|destruct Hsp].
    destruct (Nat.ltb s e); [|destruct Hsp].
    destruct Hsp as [<-|[]]. reflexivity.
Qed.










(** * Further properties of the code *)

(** ** The matcher keeps positions and captures within the text *)

Lemma stop_here_good (lo from total : nat) (k : kont) (n : nat) :
  good lo from total k ->
  good lo from total (fun pos prev rest c => stop_here n pos prev rest c k).
Proof.
  intros Hk pos prev rest c res Hpos Htot Hc Hres.
  destruct n; [|discriminate Hres]. exact (Hk _ _ _ _ _ Hpos Htot Hc Hres).
Qed.

Lemma rep_greedy_good (cs : cset) (lo from total : nat) (k : kont) :
  good lo from total k ->
  forall n,
    good lo from total (fun pos prev rest c => rep_greedy cs n pos prev rest c k).
Proof.
  intros Hk n pos prev rest. revert n pos prev.
  induction rest as [|x rest IH]; intros n pos prev c res Hpos Htot Hc Hres;
    cbn [rep_greedy] in Hres.
  - exact (stop_here_good _ _ _ _ n Hk _ _ _ _ _ Hpos Htot Hc Hres).
  - destruct (cs x).
    + destruct (rep_greedy cs (pred n) (S pos) (Some x) rest c k) as [r'|] eqn:E.
      * injection Hres as <-.
        destruct (IH (pred n) (S pos) (Some x) c r') as (H1 & H2 & H3);
          [lia | cbn [length] in Htot; lia | assumption | exact E |].
        repeat split; [lia | assumption..].
      * exact (stop_here_good _ _ _ _ n Hk _ _ _ _ _ Hpos Htot Hc Hres).
    + exact (stop_here_good _ _ _ _ n Hk _ _ _ _ _ Hpos Htot Hc Hres).
Qed.

Lemma rep_lazy_good (cs : cset) (lo from total : nat) (k : kont) :
  good lo from total k ->
  forall n,
    good lo from total (fun pos prev rest c => rep_lazy cs n pos prev rest c k).
Proof.
  intros Hk n pos prev rest. revert n pos prev.
  induction rest as [|x rest IH]; intros n pos prev c res Hpos Htot Hc Hres;
    cbn [rep_lazy] in Hres.
  - destruct (stop_here n pos prev [] c k) as [r'|] eqn:E; [|discriminate Hres].
    injection Hres as <-.
    exact (stop_here_good _ _ _ _ n Hk _ _ _ _ _ Hpos Htot Hc E).
  - destruct (stop_here n pos prev (x :: rest) c k) as [r'|] eqn:E.
    + injection Hres as <-.
      exact (stop_here_good _ _ _ _ n Hk _ _ _ _ _ Hpos Htot Hc E).
    + destruct (cs x); [|discriminate Hres].
      destruct (IH (pred n) (S pos) (Some x) c res) as (H1 & H2 & H3);
        [lia | cbn [length] in Htot; lia | assumption | exact Hres |].
      repeat split; [lia | assumption..].
Qed.

Lemma run_good (r : regex) :
  forall lo from total k,
    lo <= from -> good lo from total k ->
    good lo from total (fun pos prev rest c => run r pos prev rest c k).
Proof.
  induction r as [|cs|r1 IH1 r2 IH2|r1 IH1 r2 IH2|r1 IH1|greedy n cs
                  |i name r1 IH1|r1 IH1|cs| |];
    intros lo from total k Hlo Hk pos prev rest c res Hpos Htot Hc Hres;
    cbn [run] in Hres.
  - exact (Hk _ _ _ _ _ Hpos Htot Hc Hres).
  - destruct rest as [|x rest]; [discriminate Hres|].
    destruct (cs x); [|discriminate Hres].
    destruct (Hk (S pos) (Some x) rest c res) as (H1 & H2 & H3);
      [lia | cbn [length] in Htot; lia | assumption | exact Hres |].
    repeat split; [lia | assumption..].
  - exact (IH1 lo from total _ Hlo (IH2 lo from total k Hlo Hk)
             _ _ _ _ _ Hpos Htot Hc Hres).
  - destruct (run r1 pos prev rest c k) as [r'|] eqn:E.
    + injection Hres as <-. exact (IH1 lo from total k Hlo Hk _ _ _ _ _ Hpos Htot Hc E).
    + exact (IH2 lo from total k Hlo Hk _ _ _ _ _ Hpos Htot Hc Hres).
  - destruct (run r1 pos prev rest c k) as [r'|] eqn:E.
    + injection Hres as <-. exact (IH1 lo from total k Hlo Hk _ _ _ _ _ Hpos Htot Hc E).
    + exact (Hk _ _ _ _ _ Hpos Htot Hc Hres).
  - destruct greedy.
    + exact (rep_greedy_good cs lo from total k Hk n _ _ _ _ _ Hpos Htot Hc Hres).
    + exact (rep_lazy_good cs lo from total k Hk n _ _ _ _ _ Hpos Htot Hc Hres).
  - assert (HK : good lo pos total
                   (fun pos' prev' rest' c' =>
                      k pos' prev' rest' ((i, (pos, pos')) :: c'))).
    { intros pos' prev' rest' c' res' Hpos' Htot' Hc' Hres'.
      apply (Hk pos' prev' rest' ((i, (pos, pos')) :: c') res');
        [lia | assumption | | exact Hres'].
      constructor; [cbn [fst snd]; lia | assumption]. }
    exact (IH1 lo pos total _ ltac:(lia) HK _ _ _ _ _ (Nat.le_refl _) Htot Hc Hres).
  - destruct (run r1 pos prev rest c (fun p _ _ c' => Some (p, c')))
      as [[p c']|] eqn:E; [|discriminate Hres].
    assert (Hid : good lo from total (fun p _ _ c' => Some (p, c'))).
    { intros p0 ? ? c0 res0 ? ? ? H0. injection H0 as <-. cbn [fst snd].
      repeat split; [lia | lia | assumption]. }
    destruct (IH1 lo from total _ Hlo Hid _ _ _ _ _ Hpos Htot Hc E)
      as (_ & _ & Hc').
    exact (Hk _ _ _ _ _ Hpos Htot Hc' Hres).
  - destruct prev as [y|]; [destruct (cs y); [discriminate Hres|]|];
      exact (Hk _ _ _ _ _ Hpos Htot Hc Hres).
  - destruct pos; [|discriminate Hres]. exact (Hk _ _ _ _ _ Hpos Htot Hc Hres).
  - destruct (xorb (is_word prev) (is_word (head rest))); [|discriminate Hres].
    exact (Hk _ _ _ _ _ Hpos Htot Hc Hres).
Qed.

Lemma match_at_ok (r : regex) (must : bool) (pos : nat) (prev : option N)
    (rest : list N) (m : match_) :
  match_at r must pos prev rest = Some m ->
  m_start m = pos /\ match_ok (pos + length rest) m.
Proof.
  unfold match_at. intros H.
  destruct (run r pos prev rest [] (accept must pos)) as [[e c]|] eqn:E;
    [|discriminate H].
  injection H as <-. split; [reflexivity|].
  assert (Ha : good pos pos (pos + length rest) (accept must pos)).
  { intros p ? ? c0 res ? ? ? H0. unfold accept in H0.
    destruct (must && Nat.eqb p pos); [discriminate H0|].
    injection H0 as <-. cbn [fst snd]. repeat split; [lia | lia | assumption]. }
  destruct (run_good r pos pos (pos + length rest) _ (Nat.le_refl _) Ha
              pos prev rest [] (e, c) (Nat.le_refl _) eq_refl
              (List.Forall_nil _) E) as (H1 & H2 & H3).
  unfold match_ok. cbn [m_start m_end m_caps fst snd] in *. auto.
Qed.

Lemma attempt_ok (r : regex) (pos : nat) (prev : option N) (rest : list N) :
  Forall (match_ok (pos + length rest)) (fst (attempt r pos prev rest)).
Proof.
  unfold attempt.
  destruct (match_at r false pos prev rest) as [m|] eqn:E; [|constructor].
  apply match_at_ok in E. destruct E as [_ E].
  destruct (Nat.eqb (m_end m) pos).
  - destruct (match_at r true pos prev rest) as [m'|] eqn:E'.
    + apply match_at_ok in E'. destruct E' as [_ E'].
      apply List.Forall_cons; [exact E|].
      apply List.Forall_cons; [exact E'|]. apply List.Forall_nil.
    + apply List.Forall_cons; [exact E|]. apply List.Forall_nil.
  - apply List.Forall_cons; [exact E|]. apply List.Forall_nil.
Qed.

Lemma scan_ok (r : regex) (total : nat) (rest : list N) :
  forall skip pos prev,
    pos + length rest = total ->
    Forall (match_ok total) (scan r skip pos prev rest).
Proof.
  induction rest as [|x rest IH]; intros skip pos prev Htot.
  - destruct skip; cbn [scan]; [|constructor]. cbv zeta.
    rewrite app_nil_r. rewrite <- Htot. apply attempt_ok.
  - destruct skip; cbn [scan].
    + cbv zeta. apply Forall_app. split.
      * rewrite <- Htot. apply attempt_ok.
      * apply IH. cbn [length] in Htot. lia.
    + apply IH. cbn [length] in Htot. lia.
Qed.

Lemma group_span_in (c : caps) (i s e : nat) :
  group_span c i = Some (s, e) -> In (i, (s, e)) c.
Proof.
  induction c as [|[j sp] c IH]; cbn [group_span]; [discriminate|].
  destruct (Nat.eqb_spec i j) as [->|_].
  - intros H. injection H as ->. left. reflexivity.
  - intros H. right. exact (IH H).
Qed.

Lemma highlight_regex_in_text (r : regex) (prefix : string) (line : list N)
    (sp : Span) :
  In sp (highlight_regex r prefix line) ->
  sp_start sp < sp_end sp /\ sp_end sp <= length line /\
  exists name, In name (map fst (groupindex r)) /\
               sp_style sp = (prefix ++ name)%string.
Proof.
  unfold highlight_regex. intros H. apply in_flat_map in H.
  destruct H as (m & Hm & Hsp).
  pose proof (scan_ok r (length line) line 0 0 None eq_refl) as Hok.
  rewrite Forall_forall in Hok.
  assert (Hmok : match_ok (length line) m).
  { apply Hok. apply list_elem_of_In. exact Hm. }
  split; [|split].
  - unfold match_spans in Hsp. apply in_flat_map in Hsp.
    destruct Hsp as ([name i] & _ & Hsp). cbn [fst snd] in Hsp.
    destruct (group_span (m_caps m) i) as [[s e]|]; [|destruct Hsp].
    destruct (Nat.ltb_spec s e); [|destruct Hsp].
    destruct Hsp as [<-|[]]. assumption.
  - unfold match_spans in Hsp. apply in_flat_map in Hsp.
    destruct Hsp as ([name i] & _ & Hsp). cbn [fst snd] in Hsp.
    destruct (group_span (m_caps m) i) as [[s e]|] eqn:Hg; [|destruct Hsp].
    destruct (Nat.ltb s e); [|destruct Hsp].
    destruct Hsp as [<-|[]]. cbn [sp_end].
    apply group_span_in in Hg. destruct Hmok as (_ & _ & Hc).
    unfold caps_ok in Hc. rewrite Forall_forall in Hc.
    apply list_elem_of_In in Hg. apply Hc in Hg. cbn [fst snd] in Hg. lia.
  - exact (match_spans_style _ _ _ _ Hsp).
Qed.

(** X1.  Whatever the text, every span the highlighter puts on it is not
    empty, ends within the text and carries one of the nineteen tags. *)
Theorem highlight_spans_in_text (line : list N) :
  Forall
    (fun sp =>
       sp_start sp < sp_end sp /\ sp_end sp <= length line /\
       In (sp_style sp) listed_tags)
    (DTypeRegexHighlighter.highlight line).
Proof.
  apply Forall_forall. intros sp Hsp. apply list_elem_of_In in Hsp.
  unfold DTypeRegexHighlighter.highlight, Rich.highlight in Hsp.
  apply in_flat_map in Hsp. destruct Hsp as (r & Hr & Hsp).
  apply highlight_regex_in_text in Hsp.
  destruct Hsp as (H1 & H2 & name & Hname & Hstyle).
  split; [exact H1|]. split; [exact H2|].
  rewrite Hstyle. change (base_style ++ name)%string with name.
  assert (Ht : In name tags).
  { unfold tags. apply in_map_iff in Hname. destruct Hname as (ni & <- & Hni).
    apply in_map. apply in_flat_map. exists r. split; assumption. }
  clear - Ht. vm_compute in Ht. vm_compute. intuition (subst; tauto).
Qed.

(** ** Reading the spans of one tag *)

Lemma tagged_app (t : string) (l1 l2 : list Span) :
  tagged t (l1 ++ l2) = tagged t l1 ++ tagged t l2.
Proof. unfold tagged. rewrite List.filter_app. apply map_app. Qed.

Lemma tagged_in (t : string) (spans : list Span) (s e : nat) :
  In (s, e) (tagged t spans) <-> In (mkSpan s e t) spans.
Proof.
  unfold tagged. rewrite in_map_iff. split.
  - intros ([s' e' t'] & Heq & Hin). apply filter_In in Hin.
    destruct Hin as [Hin Ht]. cbn [sp_start sp_end sp_style] in *.
    apply String.eqb_eq in Ht. injection Heq as -> ->. subst t'. exact Hin.
  - intros Hin. exists (mkSpan s e t). split; [reflexivity|].
    apply filter_In. split; [exact Hin|]. apply String.eqb_refl.
Qed.

Lemma tagged_none (t : string) (spans : list Span) :
  (forall sp, In sp spans -> String.eqb (sp_style sp) t = false) ->
  tagged t spans = [].
Proof.
  induction spans as [|sp spans IH]; intros H; [reflexivity|].
  unfold tagged. cbn [List.filter]. rewrite (H sp (or_introl eq_refl)).
  apply IH. intros sp' Hin. apply H. right. exact Hin.
Qed.

Lemma tagged_other_rule (t : string) (r : regex) (line : list N) :
  has_tag t r = false ->
  tagged t (highlight_regex r base_style line) = [].
Proof.
  intros Hr. apply tagged_none. intros sp Hsp.
  unfold highlight_regex in Hsp. apply in_flat_map in Hsp.
  destruct Hsp as (m & _ & Hsp). apply match_spans_style in Hsp.
  destruct Hsp as (name & Hname & ->).
  unfold has_tag in Hr.
  destruct (String.eqb (base_style ++ name) t) eqn:E; [|reflexivity].
  assert (Hex : existsb (fun name => String.eqb (base_style ++ name)%string t)
                  (map fst (groupindex r)) = true).
  { apply existsb_exists. exists name. split; assumption. }
  congruence.
Qed.

(** The spans of a tag that one rule only produces are the spans of that
    rule. *)
Ltac only_rule t :=
  unfold DTypeRegexHighlighter.highlight, Rich.highlight, highlights;
  cbn [flat_map]; rewrite ?tagged_app;
  try rewrite (tagged_other_rule t re_constant _ eq_refl);
  try rewrite (tagged_other_rule t re_str _ eq_refl);
  try rewrite (tagged_other_rule t re_number _ eq_refl);
  try rewrite (tagged_other_rule t re_true _ eq_refl);
  try rewrite (tagged_other_rule t re_false _ eq_refl);
  try rewrite (tagged_other_rule t re_none _ eq_refl);
  try rewrite (tagged_other_rule t re_enum _ eq_refl);
  try rewrite (tagged_other_rule t re_dataclass_name _ eq_refl);
  try rewrite (tagged_other_rule t re_dict_key _ eq_refl);
  try rewrite (tagged_other_rule t re_punctuation _ eq_refl);
  try rewrite (tagged_other_rule t re_timestamp _ eq_refl);
  try rewrite (tagged_other_rule t re_function _ eq_refl);
  try rewrite (tagged_other_rule t re_instance _ eq_refl);
  try rewrite (tagged_other_rule t re_class _ eq_refl);
  try rewrite (tagged_other_rule t re_module _ eq_refl);
  try rewrite (tagged_other_rule t re_module_from _ eq_refl);
  cbn [app]; rewrite ?app_nil_r.

(** ** The PUNCTUATION rule *)




(** ** The rules for True, False and None *)







(** ** Spans of one tag never overlap *)

Lemma caps_within_later (lo hi hi' : nat) (c : caps) :
  hi <= hi' -> caps_within lo hi c -> caps_within lo hi' c.
Proof.
  intros Hle H. unfold caps_within in *. eapply Forall_impl; [exact H|].
  intros g (H1 & H2 & H3). cbv beta. lia.
Qed.

Lemma stop_here_tight (lo from : nat) (k : kont) (n : nat) :
  tight lo from k ->
  tight lo from (fun pos prev rest c => stop_here n pos prev rest c k).
Proof.
  intros Hk pos prev rest c res Hpos Hc Hres.
  destruct n; [|discriminate Hres]. exact (Hk _ _ _ _ _ Hpos Hc Hres).
Qed.

Lemma rep_greedy_tight (cs : cset) (lo from : nat) (k : kont) :
  tight lo from k ->
  forall n,
    tight lo from (fun pos prev rest c => rep_greedy cs n pos prev rest c k).
Proof.
  intros Hk n pos prev rest. revert n pos prev.
  induction rest as [|x rest IH]; intros n pos prev c res Hpos Hc Hres;
    cbn [rep_greedy] in Hres.
  - exact (stop_here_tight _ _ _ n Hk _ _ _ _ _ Hpos Hc Hres).
  - destruct (cs x).
    + destruct (rep_greedy cs (pred n) (S pos) (Some x) rest c k) as [r'|] eqn:E.
      * injection Hres as <-.
        destruct (IH (pred n) (S pos) (Some x) c r') as (H1 & H2);
          [lia | apply (caps_within_later lo pos); [lia | assumption] | exact E |].
        split; [lia | assumption].
      * exact (stop_here_tight _ _ _ n Hk _ _ _ _ _ Hpos Hc Hres).
    + exact (stop_here_tight _ _ _ n Hk _ _ _ _ _ Hpos Hc Hres).
Qed.

Lemma rep_lazy_tight (cs : cset) (lo from : nat) (k : kont) :
  tight lo from k ->
  forall n,
    tight lo from (fun pos prev rest c => rep_lazy cs n pos prev rest c k).
Proof.
  intros Hk n pos prev rest. revert n pos prev.
  induction rest as [|x rest IH]; intros n pos prev c res Hpos Hc Hres;
    cbn [rep_lazy] in Hres.
  - destruct (stop_here n pos prev [] c k) as [r'|] eqn:E; [|discriminate Hres].
    injection Hres as <-.
    exact (stop_here_tight _ _ _ n Hk _ _ _ _ _ Hpos Hc E).
  - destruct (stop_here n pos prev (x :: rest) c k) as [r'|] eqn:E.
    + injection Hres as <-.
      exact (stop_here_tight _ _ _ n Hk _ _ _ _ _ Hpos Hc E).
    + destruct (cs x); [|discriminate Hres].
      destruct (IH (pred n) (S pos) (Some x) c res) as (H1 & H2);
        [lia | apply (caps_within_later lo pos); [lia | assumption]
         | exact Hres |].
      split; [lia | assumption].
Qed.

Lemma run_tight (r : regex) :
  ahead_simple r = true ->
  forall lo from k,
    lo <= from -> tight lo from k ->
    tight lo from (fun pos prev rest c => run r pos prev rest c k).
Proof.
  induction r as [|cs|r1 IH1 r2 IH2|r1 IH1 r2 IH2|r1 IH1|greedy n cs
                  |i name r1 IH1|r1 IH1|cs| |];
    intros Hs lo from k Hlo Hk pos prev rest c res Hpos Hc Hres;
    cbn [run] in Hres; cbn [ahead_simple] in Hs.
  - exact (Hk _ _ _ _ _ Hpos Hc Hres).
  - destruct rest as [|x rest]; [discriminate Hres|].
    destruct (cs x); [|discriminate Hres].
    destruct (Hk (S pos) (Some x) rest c res) as (H1 & H2);
      [lia | apply (caps_within_later lo pos); [lia | assumption]
       | exact Hres |].
    split; [lia | assumption].
  - apply andb_true_iff in Hs. destruct Hs as [Hs1 Hs2].
    exact (IH1 Hs1 lo from _ Hlo (IH2 Hs2 lo from k Hlo Hk)
             _ _ _ _ _ Hpos Hc Hres).
  - apply andb_true_iff in Hs. destruct Hs as [Hs1 Hs2].
    destruct (run r1 pos prev rest c k) as [r'|] eqn:E.
    + injection Hres as <-. exact (IH1 Hs1 lo from k Hlo Hk _ _ _ _ _ Hpos Hc E).
    + exact (IH2 Hs2 lo from k Hlo Hk _ _ _ _ _ Hpos Hc Hres).
  - destruct (run r1 pos prev rest c k) as [r'|] eqn:E.
    + injection Hres as <-. exact (IH1 Hs lo from k Hlo Hk _ _ _ _ _ Hpos Hc E).
    + exact (Hk _ _ _ _ _ Hpos Hc Hres).
  - destruct greedy.
    + exact (rep_greedy_tight cs lo from k Hk n _ _ _ _ _ Hpos Hc Hres).
    + exact (rep_lazy_tight cs lo from k Hk n _ _ _ _ _ Hpos Hc Hres).
  - assert (HK : tight lo pos
                   (fun pos' prev' rest' c' =>
                      k pos' prev' rest' ((i, (pos, pos')) :: c'))).
    { intros pos' prev' rest' c' res' Hpos' Hc' Hres'.
      apply (Hk pos' prev' rest' ((i, (pos, pos')) :: c') res');
        [lia | | exact Hres'].
      constructor; [cbn [fst snd]; lia | assumption]. }
    exact (IH1 Hs lo pos _ ltac:(lia) HK _ _ _ _ _ (Nat.le_refl _) Hc Hres).
  - destruct r1; try discriminate Hs. cbn [run] in Hres.
    destruct rest as [|x rest]; [discriminate Hres|].
    destruct (cs x); [|discriminate Hres].
    exact (Hk _ _ _ _ _ Hpos Hc Hres).
  - destruct prev as [y|]; [destruct (cs y); [discriminate Hres|]|];
      exact (Hk _ _ _ _ _ Hpos Hc Hres).
  - destruct pos; [|discriminate Hres]. exact (Hk _ _ _ _ _ Hpos Hc Hres).
  - destruct (xorb (is_word prev) (is_word (head rest))); [|discriminate Hres].
    exact (Hk _ _ _ _ _ Hpos Hc Hres).
Qed.

Lemma match_at_tight (r : regex) (must : bool) (pos : nat) (prev : option N)
    (rest : list N) (m : match_) :
  ahead_simple r = true ->
  match_at r must pos prev rest = Some m ->
  m_start m = pos /\ match_tight m.
Proof.
  unfold match_at. intros Hs H.
  destruct (run r pos prev rest [] (accept must pos)) as [[e c]|] eqn:E;
    [|discriminate H].
  injection H as <-. split; [reflexivity|].
  assert (Ha : tight pos pos (accept must pos)).
  { intros p ? ? c0 res ? ? H0. unfold accept in H0.
    destruct (must && Nat.eqb p pos); [discriminate H0|].
    injection H0 as <-. cbn [fst snd]. split; [lia | assumption]. }
  destruct (run_tight r Hs pos pos _ (Nat.le_refl _) Ha
              pos prev rest [] (e, c) (Nat.le_refl _) (List.Forall_nil _) E)
    as (H1 & H2).
  unfold match_tight. cbn [m_start m_end m_caps fst snd] in *. auto.
Qed.

Lemma chain_earlier (from from' : nat) (ms : list match_) :
  from' <= from -> chain from ms -> chain from' ms.
Proof.
  destruct ms as [|m ms]; [trivial|]. cbn [chain].
  intros Hle (H1 & H2 & H3). repeat split; try assumption; try apply H2. lia.
Qed.

Lemma attempt_chain (r : regex) (pos : nat) (prev : option N) (rest : list N)
    (tail : list match_) :
  ahead_simple r = true ->
  chain (S pos + pred (snd (attempt r pos prev rest))) tail ->
  chain pos (fst (attempt r pos prev rest) ++ tail).
Proof.
  intros Hs. unfold attempt.
  destruct (match_at r false pos prev rest) as [m|] eqn:E1.
  - destruct (match_at_tight r false pos prev rest m Hs E1) as [Hst Ht].
    destruct (Nat.eqb_spec (m_end m) pos) as [He|He].
    + destruct (match_at r true pos prev rest) as [m'|] eqn:E2.
      * destruct (match_at_tight r true pos prev rest m' Hs E2) as [Hst' Ht'].
        cbn [fst snd app chain]. intros Htail.
        split; [lia|]. split; [exact Ht|]. split; [lia|].
        split; [exact Ht'|]. destruct Ht' as [Hle' _].
        eapply chain_earlier; [|exact Htail]. lia.
      * cbn [fst snd app chain Nat.pred Nat.add]. intros Htail.
        split; [lia|]. split; [exact Ht|].
        apply (chain_earlier (S (pos + 0))); [lia | exact Htail].
    + cbn [fst snd app chain]. intros Htail.
      split; [lia|]. split; [exact Ht|].
      destruct Ht as [Hle _].
      eapply chain_earlier; [|exact Htail]. lia.
  - cbn [fst snd app Nat.pred]. intros Htail.
    eapply chain_earlier; [|exact Htail]. lia.
Qed.

(** [finditer] returns its matches from left to right, none reaching into
    the next. *)
Lemma scan_chain (r : regex) :
  ahead_simple r = true ->
  forall rest skip pos prev, chain (pos + skip) (scan r skip pos prev rest).
Proof.
  intros Hs rest.
  induction rest as [|x rest IH]; intros skip pos prev; cbn [scan].
  - destruct skip as [|skip]; [|exact I]. cbv zeta.
    rewrite Nat.add_0_r. apply (attempt_chain r pos prev [] [] Hs). exact I.
  - destruct skip as [|skip].
    + cbv zeta. rewrite Nat.add_0_r. apply (attempt_chain _ _ _ _ _ Hs).
      apply IH.
    + replace (pos + S skip) with (S pos + skip) by lia. apply IH.
Qed.

Lemma apart_earlier (from from' : nat) (l : list (nat * nat)) :
  from' <= from -> apart from l -> apart from' l.
Proof.
  destruct l as [|[s e] l]; [trivial|]. cbn [apart].
  intros Hle (H1 & H2 & H3). repeat split; try assumption. lia.
Qed.

Lemma match_spans_no_name (t : string) (index : list (string * nat))
    (m : match_) :
  List.filter (fun name => String.eqb (base_style ++ name)%string t)
    (map fst index) = [] ->
  tagged t (match_spans base_style index m) = [].
Proof.
  intros H. apply tagged_none. intros sp Hsp.
  apply match_spans_style in Hsp. destruct Hsp as (name & Hname & ->).
  destruct (String.eqb (base_style ++ name) t) eqn:E; [|reflexivity].
  assert (Hin : In name
                  (List.filter
                     (fun name => String.eqb (base_style ++ name)%string t)
                     (map fst index))).
  { apply filter_In. split; assumption. }
  rewrite H in Hin. destruct Hin.
Qed.

(** A tag that names one group gets at most one span from a match, and
    that span lies inside the match. *)
Lemma match_spans_once (t : string) (index : list (string * nat))
    (m : match_) :
  length
    (List.filter (fun name => String.eqb (base_style ++ name)%string t)
       (map fst index)) <= 1 ->
  match_tight m ->
  tagged t (match_spans base_style index m) = [] \/
  exists s e, m_start m <= s /\ s < e /\ e <= m_end m /\
              tagged t (match_spans base_style index m) = [(s, e)].
Proof.
  intros Hn [_ Hc].
  induction index as [|[n i] index IH]; [left; reflexivity|].
  unfold match_spans in *. cbn [flat_map fst snd map List.filter] in *.
  rewrite tagged_app.
  destruct (String.eqb (base_style ++ n) t) eqn:En.
  - cbn [length] in Hn.
    assert (Hrest : List.filter
                      (fun name => String.eqb (base_style ++ name)%string t)
                      (map fst index) = []).
    { destruct (List.filter _ (map fst index)); [reflexivity|].
      cbn [length] in Hn. lia. }
    pose proof (match_spans_no_name t index m Hrest) as Hnone.
    unfold match_spans in Hnone. rewrite Hnone, app_nil_r.
    destruct (group_span (m_caps m) i) as [[s e]|] eqn:Eg; [|left; reflexivity].
    destruct (Nat.ltb_spec s e) as [Hlt|_]; [|left; reflexivity].
    right. exists s, e.
    apply group_span_in in Eg.
    unfold caps_within in Hc. rewrite List.Forall_forall in Hc.
    specialize (Hc _ Eg). cbn [fst snd] in Hc.
    repeat split; try lia.
    unfold tagged. cbn [List.filter sp_style sp_start sp_end map].
    rewrite En. reflexivity.
  - assert (Hhead : tagged t
                      match group_span (m_caps m) i with
                      | Some (s, e) =>
                          if Nat.ltb s e
                          then [mkSpan s e (base_style ++ n)] else []
                      | None => []
                      end = []).
    { destruct (group_span (m_caps m) i) as [[s e]|]; [|reflexivity].
      destruct (Nat.ltb s e); [|reflexivity].
      unfold tagged. cbn [List.filter sp_style]. rewrite En. reflexivity. }
    rewrite Hhead. cbn [app]. exact (IH Hn).
Qed.

Lemma chain_apart (t : string) (index : list (string * nat)) :
  length
    (List.filter (fun name => String.eqb (base_style ++ name)%string t)
       (map fst index)) <= 1 ->
  forall ms from,
    chain from ms ->
    apart from (tagged t (flat_map (match_spans base_style index) ms)).
Proof.
  intros Hn ms.
  induction ms as [|m ms IH]; intros from Hch; [exact I|].
  cbn [chain] in Hch. destruct Hch as (Hfrom & Ht & Hch).
  cbn [flat_map]. rewrite tagged_app.
  specialize (IH _ Hch).
  destruct (match_spans_once t index m Hn Ht)
    as [-> | (s & e & Hs & Hlt & He & ->)].
  - cbn [app]. destruct Ht as [Hle _].
    apply (apart_earlier (m_end m)); [lia | exact IH].
  - cbn [app apart]. split; [lia|]. split; [exact Hlt|].
    apply (apart_earlier (m_end m)); [lia | exact IH].
Qed.

Lemma rule_apart (t : string) (r : regex) (line : list N) :
  ahead_simple r = true ->
  names_once t r = true ->
  apart 0 (tagged t (highlight_regex r base_style line)).
Proof.
  intros Hs Hn. unfold highlight_regex, finditer.
  apply chain_apart.
  - unfold names_once in Hn. apply Nat.leb_le in Hn. exact Hn.
  - apply (scan_chain r Hs line 0 0 None).
Qed.

(** X4.  Two spans with the same tag never overlap, whatever the line: for
    every tag that one rule only produces (all but HEX_ADDRESS), the spans
    with that tag come from left to right, each one non-empty and ending
    before or where the next one starts. *)
Theorem same_tag_spans_apart (line : list N) :
  Forall
    (fun t => apart 0 (tagged t (DTypeRegexHighlighter.highlight line)))
    single_rule_tags.
Proof.
  unfold single_rule_tags.
  repeat apply List.Forall_cons; try apply List.Forall_nil;
    match goal with
    | |- apart 0 (tagged ?t _) =>
        only_rule t; apply rule_apart; reflexivity
    end.
Qed.

(** ** Where matches come from *)

(** Every match [finditer] reports is a match of the pattern at the
    position where it starts, against the text from there on. *)
Lemma scan_sound (r : regex) (rest : list N) :
  forall skip pos prev m,
    In m (scan r skip pos prev rest) ->
    exists i must prev',
      i <= length rest /\
      match_at r must (pos + i) prev' (drop i rest) = Some m.
Proof.
  induction rest as [|x rest IH]; intros skip pos prev m Hin.
  - destruct skip; cbn [scan] in Hin; [|destruct Hin]. cbv zeta in Hin.
    rewrite app_nil_r in Hin. unfold attempt in Hin.
    destruct (match_at r false pos prev []) as [m0|] eqn:E0; [|destruct Hin].
    destruct (Nat.eqb (m_end m0) pos).
    + destruct (match_at r true pos prev []) as [m1|] eqn:E1;
        cbn [fst In] in Hin.
      * destruct Hin as [<-|[<-|[]]];
          [exists 0, false, prev | exists 0, true, prev];
          rewrite Nat.add_0_r; cbn [drop length]; auto.
      * destruct Hin as [<-|[]]. exists 0, false, prev.
        rewrite Nat.add_0_r. cbn [drop length]. auto.
    + cbn [fst In] in Hin. destruct Hin as [<-|[]]. exists 0, false, prev.
      rewrite Nat.add_0_r. cbn [drop length]. auto.
  - assert (Htail : forall skip', In m (scan r skip' (S pos) (Some x) rest) ->
              exists i must prev', i <= length (x :: rest) /\
                match_at r must (pos + i) prev' (drop i (x :: rest)) = Some m).
    { intros skip' H. destruct (IH _ _ _ _ H) as (i & must & prev' & Hi & Hm).
      exists (S i), must, prev'. cbn [length drop].
      replace (pos + S i) with (S pos + i) by lia. split; [lia | exact Hm]. }
    destruct skip; cbn [scan] in Hin; [|exact (Htail _ Hin)].
    cbv zeta in Hin. apply in_app_or in Hin. destruct Hin as [Hin|Hin];
      [|exact (Htail _ Hin)].
    unfold attempt in Hin.
    destruct (match_at r false pos prev (x :: rest)) as [m0|] eqn:E0;
      [|destruct Hin].
    destruct (Nat.eqb (m_end m0) pos).
    + destruct (match_at r true pos prev (x :: rest)) as [m1|] eqn:E1;
        cbn [fst In] in Hin.
      * destruct Hin as [<-|[<-|[]]];
          [exists 0, false, prev | exists 0, true, prev];
          rewrite Nat.add_0_r; cbn [drop]; split; (lia || assumption).
      * destruct Hin as [<-|[]]. exists 0, false, prev.
        rewrite Nat.add_0_r. cbn [drop]. split; [lia | assumption].
    + cbn [fst In] in Hin. destruct Hin as [<-|[]]. exists 0, false, prev.
      rewrite Nat.add_0_r. cbn [drop]. split; [lia | assumption].
Qed.

(** What a greedy repetition that succeeded has taken: a run of
    characters of its set, behind which the rest of the pattern matched. *)
Lemma rep_greedy_inv (cs : cset) (c : caps) (k : kont) (res : nat * caps)
    (rest : list N) :
  forall pos prev,
    rep_greedy cs 0 pos prev rest c k = Some res ->
    exists j,
      j <= length rest /\
      Forall (fun x => cs x = true) (take j rest) /\
      k (pos + j) (prev_after prev (take j rest)) (drop j rest) c = Some res.
Proof.
  induction rest as [|x rest IH]; intros pos prev H; cbn [rep_greedy] in H.
  - exists 0. rewrite Nat.add_0_r. cbn [take drop length]. auto.
  - assert (Hstop : stop_here 0 pos prev (x :: rest) c k = Some res ->
                    exists j, j <= length (x :: rest) /\
                      Forall (fun x => cs x = true) (take j (x :: rest)) /\
                      k (pos + j) (prev_after prev (take j (x :: rest)))
                        (drop j (x :: rest)) c = Some res).
    { intros Hs. exists 0. rewrite Nat.add_0_r. cbn [take drop length].
      split; [lia|]. split; [constructor | exact Hs]. }
    destruct (cs x) eqn:Hx; [|exact (Hstop H)].
    cbn [pred] in H.
    destruct (rep_greedy cs 0 (S pos) (Some x) rest c k) as [r'|] eqn:E;
      [|exact (Hstop H)].
    injection H as <-. destruct (IH _ _ E) as (j & Hj & Hall & Hk).
    exists (S j). cbn [take drop length]. rewrite prev_after_cons.
    replace (pos + S j) with (S pos + j) by lia.
    split; [lia|]. split; [constructor; assumption | exact Hk].
Qed.

(** Nothing is found where the rule matches at no position. *)
Lemma scan_nothing (r : regex) (rest : list N) (skip pos : nat)
    (prev : option N) :
  (forall i must prev',
     match_at r must (pos + i) prev' (drop i rest) = None) ->
  scan r skip pos prev rest = [].
Proof.
  intros Hno. destruct (scan r skip pos prev rest) as [|m l] eqn:E;
    [reflexivity|].
  assert (Hin : In m (scan r skip pos prev rest)) by (rewrite E; left; reflexivity).
  apply scan_sound in Hin. destruct Hin as (i & must & prev' & _ & Hm).
  rewrite Hno in Hm. discriminate Hm.
Qed.

(** ** The CONSTANT rule *)




(** ** The CLASS and DATACLASS_NAME rules *)

Lemma class_match (path post : list N) :
  path <> [] ->
  Forall (fun c => class_path_char c = true) path ->
  match_at re_class false 0 None (class_repr path ++ post)
  = Some (Match 0 (length path + 10) [(1, (8, 8 + length path))]).
Proof.
  intros Hne Hp. unfold match_at, re_class, class_repr.
  rewrite <- !app_assoc.
  change (codes "<class '" ++ path ++ codes "'>" ++ post)
    with (60 :: 99 :: 108 :: 97 :: 115 :: 115 :: 32 :: 39 :: path ++ 39 :: 62 :: post)%N.
  cbn [run cat lit lit_codes codes list_ascii_of_string map].
  cbn -[rep_greedy Nat.add].
  fold class_path_char.
  erewrite (rep_greedy_all class_path_char path (39 :: 62 :: post)%N _ _
              (length path + 10, [(1, (8, 8 + length path))]) Hp).
  - reflexivity.
  - replace (1 - length path) with 0
      by (destruct path; [contradiction | cbn [length]; lia]).
    cbn -[Nat.add]. repeat f_equal; lia.
Qed.

Lemma head_match_tagged (r : regex) (name : string) (line : list N)
    (m : match_) (s e : nat) :
  In r highlights ->
  groupindex r = [(name, 1)] ->
  match_at r false 0 None line = Some m ->
  0 < m_end m ->
  group_span (m_caps m) 1 = Some (s, e) ->
  s < e ->
  In (s, e) (tagged name (DTypeRegexHighlighter.highlight line)).
Proof.
  intros Hr Hg Hm Hend Hspan Hlt. apply tagged_in.
  unfold DTypeRegexHighlighter.highlight, Rich.highlight.
  apply in_flat_map. exists r. split; [exact Hr|].
  unfold highlight_regex. apply in_flat_map. exists m. split.
  - unfold finditer. destruct line as [|x line].
    + cbn [scan]. cbv zeta. unfold attempt. rewrite Hm.
      replace (Nat.eqb (m_end m) 0) with false
        by (symmetry; apply Nat.eqb_neq; lia).
      left. reflexivity.
    + rewrite (scan_hit r 0 None x line m (m_end m - 1) Hm) by lia.
      left. reflexivity.
  - unfold match_spans. rewrite Hg. cbn [flat_map fst snd app].
    rewrite Hspan. apply Nat.ltb_lt in Hlt. rewrite Hlt.
    left. reflexivity.
Qed.

(** X6.  A class representation at the start of a line has its path tagged
    CLASS, whatever the path of word characters and dots and whatever
    follows. *)
Theorem class_repr_path_tagged (path post : list N) :
  path <> [] ->
  Forall (fun c => class_path_char c = true) path ->
  Markup.slice (class_repr path ++ post) 8 (8 + length path) = path /\
  In (8, 8 + length path)
    (tagged "CLASS" (DTypeRegexHighlighter.highlight (class_repr path ++ post))).
Proof.
  intros Hne Hp. split.
  - unfold Markup.slice, class_repr. rewrite <- !app_assoc.
    rewrite drop_app_length' by reflexivity.
    replace (8 + length path - 8) with (length path) by lia.
    apply take_app_length.
  - apply (head_match_tagged re_class "CLASS" _ _ 8 (8 + length path)
             ltac:(unfold highlights; cbn [In]; tauto) eq_refl
             (class_match path post Hne Hp)).
    + cbn [m_end]. lia.
    + reflexivity.
    + destruct path; [contradiction | cbn [length]; lia].
Qed.

Lemma class_repr_path_tagged_witness :
  codes "pkg.Mod" <> [] /\
  Forall (fun c => class_path_char c = true) (codes "pkg.Mod") /\
  In (8, 15)
    (tagged "CLASS" (DTypeRegexHighlighter.highlight (codes "<class 'pkg.Mod'>"))).
Proof.
  assert (Hne : codes "pkg.Mod" <> []) by discriminate.
  assert (Hp : Forall (fun c => class_path_char c = true) (codes "pkg.Mod"))
    by (repeat constructor).
  split; [exact Hne|]. split; [exact Hp|].
  exact (proj2 (class_repr_path_tagged (codes "pkg.Mod") [] Hne Hp)).
Defined.

Lemma dataclass_match (name post : list N) :
  Forall (fun c => A_to_z c = true) name ->
  match_at re_dataclass_name false 0 None (name ++ 40%N :: post)
  = Some (Match 0 (length name) [(1, (0, length name))]).
Proof.
  intros Hn. unfold match_at, re_dataclass_name. cbn [run].
  erewrite (rep_greedy_all A_to_z name (40%N :: post) _ _
              (length name, [(1, (0, length name))]) Hn).
  - reflexivity.
  - cbn [Nat.sub]. cbn -[Nat.add]. reflexivity.
Qed.

(** X7.  A name at the start of a line that is followed by an opening
    parenthesis is tagged DATACLASS_NAME, be it a dataclass or any other
    call. The name may hold, besides letters, the characters between Z and
    a: brackets, backslash, caret, underscore and backtick. *)
Theorem name_before_parenthesis_tagged (name post : list N) :
  name <> [] ->
  Forall (fun c => (N.leb 65 c && N.leb c 122) = true) name ->
  In (0, length name)
    (tagged "DATACLASS_NAME"
       (DTypeRegexHighlighter.highlight (name ++ codes "(" ++ post))).
Proof.
  intros Hne Hn.
  apply (head_match_tagged re_dataclass_name "DATACLASS_NAME" _ _ 0 (length name)
           ltac:(unfold highlights; cbn [In]; tauto) eq_refl
           (dataclass_match name post Hn)).
  - cbn [m_end]. destruct name; [contradiction | cbn [length]; lia].
  - reflexivity.
  - destruct name; [contradiction | cbn [length]; lia].
Qed.

Lemma name_before_parenthesis_witness :
  codes "print" <> [] /\
  Forall (fun c => (N.leb 65 c && N.leb c 122) = true) (codes "print") /\
  In (0, 5)
    (tagged "DATACLASS_NAME"
       (DTypeRegexHighlighter.highlight (codes "print(1)"))).
Proof.
  assert (Hne : codes "print" <> []) by discriminate.
  assert (Hn : Forall (fun c => (N.leb 65 c && N.leb c 122) = true) (codes "print"))
    by (repeat constructor).
  split; [exact Hne|]. split; [exact Hn|].
  exact (name_before_parenthesis_tagged (codes "print") (codes "1)") Hne Hn).
Defined.

(** ** The DICT_KEY rule on a line with several keys *)











(** ** The rules for functions, instances and modules *)

Lemma visible_not_space (c : N) : visible c = true -> not_space c = true.
Proof.
  unfold visible, not_space, compl, space. intros H.
  apply andb_true_iff in H. destruct H as [H1 H2].
  apply N.ltb_lt in H1.
  replace (N.leb c 13) with false by (symmetry; apply N.leb_gt; lia).
  replace (N.leb c 32) with false by (symmetry; apply N.leb_gt; lia).
  rewrite !andb_false_r. reflexivity.
Qed.

Lemma head_match_group_tagged (r : regex) (name : string) (i : nat)
    (line : list N) (m : match_) (s e : nat) :
  In r highlights ->
  In (name, i) (groupindex r) ->
  match_at r false 0 None line = Some m ->
  0 < m_end m ->
  group_span (m_caps m) i = Some (s, e) ->
  s < e ->
  In (s, e) (tagged name (DTypeRegexHighlighter.highlight line)).
Proof.
  intros Hr Hg Hm Hend Hspan Hlt. apply tagged_in.
  unfold DTypeRegexHighlighter.highlight, Rich.highlight.
  apply in_flat_map. exists r. split; [exact Hr|].
  unfold highlight_regex. apply in_flat_map. exists m. split.
  - unfold finditer. destruct line as [|x line].
    + cbn [scan]. cbv zeta. unfold attempt. rewrite Hm.
      replace (Nat.eqb (m_end m) 0) with false
        by (symmetry; apply Nat.eqb_neq; lia).
      left. reflexivity.
    + rewrite (scan_hit r 0 None x line m (m_end m - 1) Hm) by lia.
      left. reflexivity.
  - unfold match_spans. apply in_flat_map. exists (name, i).
    split; [exact Hg|]. cbn [fst snd]. rewrite Hspan.
    apply Nat.ltb_lt in Hlt. rewrite Hlt. left. reflexivity.
Qed.

Lemma function_match (name addr post : list N) :
  name <> [] -> addr <> [] ->
  Forall (fun c => visible c = true) name ->
  Forall (fun c => alnum c = true) addr ->
  match_at re_function false 0 None (function_repr name addr ++ post)
  = Some (Match 0 (length name + length addr + 15)
            [(2, (14 + length name, 14 + length name + length addr));
             (1, (10, 10 + length name))]).
Proof.
  intros Hn Ha Hname Haddr. unfold match_at, re_function, function_repr.
  rewrite <- !app_assoc.
  change (codes "<function " ++ name ++ codes " at " ++ addr ++ codes ">" ++ post)
    with (60 :: 102 :: 117 :: 110 :: 99 :: 116 :: 105 :: 111 :: 110 :: 32
          :: name ++ 32 :: 97 :: 116 :: 32 :: addr ++ 62 :: post)%N.
  cbn [run cat lit lit_codes codes list_ascii_of_string map].
  cbn -[rep_greedy Nat.add].
  assert (Hns : Forall (fun c => not_space c = true) name).
  { eapply Forall_impl; [exact Hname|]. intros c. apply visible_not_space. }
  erewrite (rep_greedy_all not_space name
              (32 :: 97 :: 116 :: 32 :: addr ++ 62 :: post)%N _ _
              (length name + length addr + 15,
               [(2, (14 + length name, 14 + length name + length addr));
                (1, (10, 10 + length name))]) Hns).
  - reflexivity.
  - replace (1 - length name) with 0
      by (destruct name; [contradiction | cbn [length]; lia]).
    cbn [rep_greedy]. change (not_space 32%N) with false.
    cbv beta iota. cbn -[rep_greedy Nat.add].
    erewrite (rep_greedy_all alnum addr (62 :: post)%N _ _
                (length name + length addr + 15,
                 [(2, (14 + length name, 14 + length name + length addr));
                  (1, (10, 10 + length name))]) Haddr).
    + reflexivity.
    + replace (1 - length addr) with 0
        by (destruct addr; [contradiction | cbn [length]; lia]).
      cbn -[Nat.add]. repeat f_equal; lia.
Qed.

(** X9.  In a line that starts with the representation of a function,
    whatever its name of printable characters without blanks and
    whatever follows, the name is tagged FUNCTION_NAME and the address
    HEX_ADDRESS. *)
Theorem function_repr_tagged (name addr post : list N) :
  name <> [] -> addr <> [] ->
  Forall (fun c => visible c = true) name ->
  Forall (fun c => alnum c = true) addr ->
  Markup.slice (function_repr name addr ++ post) 10 (10 + length name) = name /\
  Markup.slice (function_repr name addr ++ post) (14 + length name)
    (14 + length name + length addr) = addr /\
  In (10, 10 + length name)
    (tagged "FUNCTION_NAME"
       (DTypeRegexHighlighter.highlight (function_repr name addr ++ post))) /\
  In (14 + length name, 14 + length name + length addr)
    (tagged "HEX_ADDRESS"
       (DTypeRegexHighlighter.highlight (function_repr name addr ++ post))).
Proof.
  intros Hn Ha Hname Haddr.
  pose proof (function_match name addr post Hn Ha Hname Haddr) as Hm.
  assert (Hr : In re_function highlights)
    by (unfold highlights; cbn [In]; tauto).
  split; [|split; [|split]].
  - unfold Markup.slice, function_repr. rewrite <- !app_assoc.
    rewrite drop_app_length' by reflexivity.
    replace (10 + length name - 10) with (length name) by lia.
    apply take_app_length.
  - unfold Markup.slice, function_repr.
    replace (codes "<function " ++ name ++ codes " at " ++ addr ++ codes ">")
      with ((codes "<function " ++ name ++ codes " at ") ++ addr ++ codes ">")
      by (rewrite <- !app_assoc; reflexivity).
    rewrite <- !app_assoc.
    rewrite (app_assoc (codes "<function ")), (app_assoc _ (codes " at ")).
    rewrite drop_app_length'
      by (rewrite !length_app; cbn [length codes list_ascii_of_string map]; lia).
    replace (14 + length name + length addr - (14 + length name))
      with (length addr) by lia.
    apply take_app_length.
  - apply (head_match_group_tagged re_function "FUNCTION_NAME" 1 _ _ _ _
             Hr ltac:(cbn; tauto) Hm).
    + cbn [m_end]. lia.
    + reflexivity.
    + destruct name; [contradiction | cbn [length]; lia].
  - apply (head_match_group_tagged re_function "HEX_ADDRESS" 2 _ _ _ _
             Hr ltac:(cbn; tauto) Hm).
    + cbn [m_end]. lia.
    + reflexivity.
    + destruct addr; [contradiction | cbn [length]; lia].
Qed.

Lemma function_repr_tagged_witness :
  In (10, 18)
    (tagged "FUNCTION_NAME"
       (DTypeRegexHighlighter.highlight (codes "<function <lambda> at 0x7f3a>"))) /\
  In (22, 28)
    (tagged "HEX_ADDRESS"
       (DTypeRegexHighlighter.highlight (codes "<function <lambda> at 0x7f3a>"))).
Proof.
  assert (Hn : codes "<lambda>" <> []) by discriminate.
  assert (Ha : codes "0x7f3a" <> []) by discriminate.
  assert (Hname : Forall (fun c => visible c = true) (codes "<lambda>"))
    by (repeat constructor).
  assert (Haddr : Forall (fun c => alnum c = true) (codes "0x7f3a"))
    by (repeat constructor).
  destruct (function_repr_tagged (codes "<lambda>") (codes "0x7f3a") []
              Hn Ha Hname Haddr) as (_ & _ & H1 & H2).
  split; [exact H1 | exact H2].
Defined.

Lemma instance_match (cls addr post : list N) :
  cls <> [] -> addr <> [] ->
  Forall (fun c => visible c = true) cls ->
  Forall (fun c => alnum c = true) addr ->
  match_at re_instance false 0 None (instance_repr cls addr ++ post)
  = Some (Match 0 (length cls + length addr + 13)
            [(2, (12 + length cls, 12 + length cls + length addr));
             (1, (1, 1 + length cls))]).
Proof.
  intros Hn Ha Hcls Haddr. unfold match_at, re_instance, instance_repr.
  rewrite <- !app_assoc.
  change (codes "<" ++ cls ++ codes " object at " ++ addr ++ codes ">" ++ post)
    with (60 :: cls ++ 32 :: 111 :: 98 :: 106 :: 101 :: 99 :: 116 :: 32
          :: 97 :: 116 :: 32 :: addr ++ 62 :: post)%N.
  cbn [run cat lit lit_codes codes list_ascii_of_string map].
  cbn -[rep_greedy Nat.add].
  assert (Hns : Forall (fun c => not_space c = true) cls).
  { eapply Forall_impl; [exact Hcls|]. intros c. apply visible_not_space. }
  erewrite (rep_greedy_all not_space cls
              (32 :: 111 :: 98 :: 106 :: 101 :: 99 :: 116 :: 32
               :: 97 :: 116 :: 32 :: addr ++ 62 :: post)%N _ _
              (length cls + length addr + 13,
               [(2, (12 + length cls, 12 + length cls + length addr));
                (1, (1, 1 + length cls))]) Hns).
  - reflexivity.
  - replace (1 - length cls) with 0
      by (destruct cls; [contradiction | cbn [length]; lia]).
    cbn [rep_greedy]. change (not_space 32%N) with false.
    cbv beta iota. cbn -[rep_greedy Nat.add].
    erewrite (rep_greedy_all alnum addr (62 :: post)%N _ _
                (length cls + length addr + 13,
                 [(2, (12 + length cls, 12 + length cls + length addr));
                  (1, (1, 1 + length cls))]) Haddr).
    + reflexivity.
    + replace (1 - length addr) with 0
        by (destruct addr; [contradiction | cbn [length]; lia]).
      cbn -[Nat.add]. repeat f_equal; lia.
Qed.

(** X10.  In a line that starts with the representation of an instance,
    whatever its class path of printable characters without blanks and
    whatever follows, the class path is tagged INSTANCE_CLS and the address
    HEX_ADDRESS. *)
Theorem instance_repr_tagged (cls addr post : list N) :
  cls <> [] -> addr <> [] ->
  Forall (fun c => visible c = true) cls ->
  Forall (fun c => alnum c = true) addr ->
  Markup.slice (instance_repr cls addr ++ post) 1 (1 + length cls) = cls /\
  Markup.slice (instance_repr cls addr ++ post) (12 + length cls)
    (12 + length cls + length addr) = addr /\
  In (1, 1 + length cls)
    (tagged "INSTANCE_CLS"
       (DTypeRegexHighlighter.highlight (instance_repr cls addr ++ post))) /\
  In (12 + length cls, 12 + length cls + length addr)
    (tagged "HEX_ADDRESS"
       (DTypeRegexHighlighter.highlight (instance_repr cls addr ++ post))).
Proof.
  intros Hn Ha Hcls Haddr.
  pose proof (instance_match cls addr post Hn Ha Hcls Haddr) as Hm.
  assert (Hr : In re_instance highlights)
    by (unfold highlights; cbn [In]; tauto).
  split; [|split; [|split]].
  - unfold Markup.slice, instance_repr. rewrite <- !app_assoc.
    rewrite drop_app_length' by reflexivity.
    replace (1 + length cls - 1) with (length cls) by lia.
    apply take_app_length.
  - unfold Markup.slice, instance_repr. rewrite <- !app_assoc.
    rewrite (app_assoc (codes "<")), (app_assoc _ (codes " object at ")).
    rewrite drop_app_length'
      by (rewrite !length_app; cbn [length codes list_ascii_of_string map]; lia).
    replace (12 + length cls + length addr - (12 + length cls))
      with (length addr) by lia.
    apply take_app_length.
  - apply (head_match_group_tagged re_instance "INSTANCE_CLS" 1 _ _ _ _
             Hr ltac:(cbn; tauto) Hm).
    + cbn [m_end]. lia.
    + reflexivity.
    + destruct cls; [contradiction | cbn [length]; lia].
  - apply (head_match_group_tagged re_instance "HEX_ADDRESS" 2 _ _ _ _
             Hr ltac:(cbn; tauto) Hm).
    + cbn [m_end]. lia.
    + reflexivity.
    + destruct addr; [contradiction | cbn [length]; lia].
Qed.

Lemma instance_repr_tagged_witness :
  In (1, 8)
    (tagged "INSTANCE_CLS"
       (DTypeRegexHighlighter.highlight (codes "<pkg.Cls object at 0x7f3a>"))) /\
  In (19, 25)
    (tagged "HEX_ADDRESS"
       (DTypeRegexHighlighter.highlight (codes "<pkg.Cls object at 0x7f3a>"))).
Proof.
  assert (Hn : codes "pkg.Cls" <> []) by discriminate.
  assert (Ha : codes "0x7f3a" <> []) by discriminate.
  assert (Hcls : Forall (fun c => visible c = true) (codes "pkg.Cls"))
    by (repeat constructor).
  assert (Haddr : Forall (fun c => alnum c = true) (codes "0x7f3a"))
    by (repeat constructor).
  destruct (instance_repr_tagged (codes "pkg.Cls") (codes "0x7f3a") []
              Hn Ha Hcls Haddr) as (_ & _ & H1 & H2).
  split; [exact H1 | exact H2].
Defined.

Lemma module_match (name rest : list N) :
  name <> [] ->
  Forall (fun c => visible c = true) name ->
  match_at re_module false 0 None (module_repr name rest)
  = Some (Match 0 (length name + 10) [(1, (9, 9 + length name))]).
Proof.
  intros Hn Hname. unfold match_at, re_module, module_repr.
  change (codes "<module '" ++ name ++ codes "' " ++ rest)
    with (60 :: 109 :: 111 :: 100 :: 117 :: 108 :: 101 :: 32 :: 39
          :: name ++ 39 :: 32 :: rest)%N.
  cbn [run cat lit lit_codes codes list_ascii_of_string map].
  cbn -[rep_greedy Nat.add].
  assert (Hns : Forall (fun c => not_space c = true) name).
  { eapply Forall_impl; [exact Hname|]. intros c. apply visible_not_space. }
  erewrite (rep_greedy_all not_space name (39 :: 32 :: rest)%N _ _
              (length name + 10, [(1, (9, 9 + length name))]) Hns).
  - reflexivity.
  - replace (1 - length name) with 0
      by (destruct name; [contradiction | cbn [length]; lia]).
    cbn [rep_greedy]. change (not_space 39%N) with true.
    change (not_space 32%N) with false. cbv beta iota.
    cbn -[Nat.add]. repeat f_equal; lia.
Qed.

(** X11.  In a line that starts with the representation of a module, the
    name between the quotes is tagged MODULE, whatever the name of printable
    characters without blanks, quotes among them, and whatever follows the
    blank behind the closing quote. *)
Theorem module_repr_name_tagged (name rest : list N) :
  name <> [] ->
  Forall (fun c => visible c = true) name ->
  Markup.slice (module_repr name rest) 9 (9 + length name) = name /\
  In (9, 9 + length name)
    (tagged "MODULE"
       (DTypeRegexHighlighter.highlight (module_repr name rest))).
Proof.
  intros Hn Hname. split.
  - unfold Markup.slice, module_repr.
    rewrite drop_app_length' by reflexivity.
    replace (9 + length name - 9) with (length name) by lia.
    apply take_app_length.
  - apply (head_match_group_tagged re_module "MODULE" 1 _ _ _ _
             ltac:(unfold highlights; cbn [In]; tauto) ltac:(cbn; tauto)
             (module_match name rest Hn Hname)).
    + cbn [m_end]. lia.
    + reflexivity.
    + destruct name; [contradiction | cbn [length]; lia].
Qed.

Lemma module_repr_name_tagged_witness :
  In (9, 16)
    (tagged "MODULE"
       (DTypeRegexHighlighter.highlight
          (codes "<module 'os.path' from '/usr/lib/posixpath.py'>"))).
Proof.
  assert (Hn : codes "os.path" <> []) by discriminate.
  assert (Hname : Forall (fun c => visible c = true) (codes "os.path"))
    by (repeat constructor).
  exact (proj2 (module_repr_name_tagged (codes "os.path")
                  (codes "from '/usr/lib/posixpath.py'>") Hn Hname)).
Defined.

(** ** format_timestamp on every time of day *)

(** X12.  For every time of day the formatted text is a bracketed time whose
    components read back as the hour, the minute and the second, and the
    highlighter tags exactly the hour HOUR, the minute MINUTE and the second
    SECOND. *)
Theorem format_timestamp_reads_back (t : datetime) :
  valid_time t ->
  (exists h1 h2 m1 m2 s1 s2,
     fst (format_timestamp_ t) = bracketed_time h1 h2 m1 m2 s1 s2 /\
     two_digit h1 h2 = N.of_nat (hour t) /\
     two_digit m1 m2 = N.of_nat (minute t) /\
     two_digit s1 s2 = N.of_nat (second t)) /\
  tagged "HOUR" (snd (format_timestamp_ t)) = [(1, 3)] /\
  tagged "MINUTE" (snd (format_timestamp_ t)) = [(4, 6)] /\
  tagged "SECOND" (snd (format_timestamp_ t)) = [(7, 9)].
Proof.
  intros (Hh & Hm & Hs).
  pose proof (two_digits_ok (hour t) ltac:(lia)) as Dh.
  pose proof (two_digits_ok (minute t) ltac:(lia)) as Dm.
  pose proof (two_digits_ok (second t) ltac:(lia)) as Ds.
  unfold format_timestamp_, format_timestamp, HIGHLIGHTER. cbn [fst snd].
  unfold strftime_X.
  destruct (two_digits (hour t)) as [|h1 [|h2 [|]]]; try contradiction.
  destruct (two_digits (minute t)) as [|m1 [|m2 [|]]]; try contradiction.
  destruct (two_digits (second t)) as [|s1 [|s2 [|]]]; try contradiction.
  destruct Dh as (? & ? & Vh), Dm as (? & ? & Vm), Ds as (? & ? & Vs).
  change (codes "[" ++ [h1; h2] ++ codes ":" ++ [m1; m2] ++ codes ":" ++
          [s1; s2] ++ codes "]")
    with (bracketed_time h1 h2 m1 m2 s1 s2 ++ []).
  assert (Hd : forallb is_digit [h1; h2; m1; m2; s1; s2] = true)
    by (cbn [forallb]; rewrite H, H0, H1, H2, H3, H4; reflexivity).
  assert (Hr : time_in_range h1 h2 m1 m2 s1 s2)
    by (unfold time_in_range; rewrite Vh, Vm, Vs; lia).
  assert (Hspans : timestamp_rule_spans (bracketed_time h1 h2 m1 m2 s1 s2 ++ [])
                   = timestamp_spans 0).
  { rewrite ts_spans_when.
    rewrite (proj1 (ts_leading_match h1 h2 m1 m2 s1 s2 [] Hd) Hr). reflexivity. }
  unfold timestamp_rule_spans in Hspans. rewrite app_nil_r in Hspans |- *.
  split; [|split; [|split]].
  - exists h1, h2, m1, m2, s1, s2. auto.
  - only_rule "HOUR". rewrite Hspans. reflexivity.
  - only_rule "MINUTE". rewrite Hspans. reflexivity.
  - only_rule "SECOND". rewrite Hspans. reflexivity.
Qed.

Lemma format_timestamp_reads_back_witness :
  valid_time (mkTime 9 5 59) /\
  fst (format_timestamp_ (mkTime 9 5 59)) = codes "[09:05:59]" /\
  tagged "HOUR" (snd (format_timestamp_ (mkTime 9 5 59))) = [(1, 3)].
Proof.
  assert (Hv : valid_time (mkTime 9 5 59))
    by (unfold valid_time; cbn [hour minute second]; lia).
  split; [exact Hv|]. split; [reflexivity|].
  exact (proj1 (proj2 (format_timestamp_reads_back (mkTime 9 5 59) Hv))).
Defined.

(** ** The theme and the prefix the class meant to set *)

(** X13.  The theme's own styles are the nineteen tags and nothing else, and
    none of them is filed under the prefix the class assigns to
    [base_stype]: with that prefix in use no rule of the highlighter would
    find its style. *)
Theorem theme_keys_are_bare_tags :
  (forall k, is_Some (styles DEFAULT_THEME !! k) <-> In k listed_tags) /\
  (forall n, styles DEFAULT_THEME !! (base_stype ++ n)%string = None).
Proof.
  assert (Hkeys : forall k v, styles DEFAULT_THEME !! k = Some v -> In k listed_tags).
  { intros k v H. unfold DEFAULT_THEME in H. cbn [styles] in H.
    apply elem_of_list_to_map_2 in H. apply list_elem_of_In in H.
    cbn [In] in H. unfold listed_tags. cbn [In].
    repeat (destruct H as [H|H]; [injection H as <- _; tauto|]).
    destruct H. }
  split.
  - intros k. split.
    + intros [v Hv]. exact (Hkeys k v Hv).
    + intros Hk. unfold listed_tags in Hk. cbn [In] in Hk.
      repeat (destruct Hk as [<-|Hk]; [vm_compute; eauto|]). destruct Hk.
  - intros n. destruct (styles DEFAULT_THEME !! (base_stype ++ n)%string)
      as [v|] eqn:E; [|reflexivity].
    apply Hkeys in E. unfold listed_tags, base_stype in E. cbn [In] in E.
    cbn [String.append] in E.
    repeat (destruct E as [E|E]; [discriminate E|]). destruct E.
Qed.

(** ** More on the render hook and on print *)

(** X14.  Of two indent hooks applied one after the other the later one
    decides: the result is that of the later hook alone. In particular a
    hook applied twice does what it does once. *)
Theorem process_renderables_last_wins (h1 h2 : _PrettyIndentHook)
    (renderables : list renderable) :
  process_renderables h2 (process_renderables h1 renderables)
  = process_renderables h2 renderables /\
  process_renderables h1 (process_renderables h1 renderables)
  = process_renderables h1 renderables /\
  length (process_renderables h1 renderables) = length renderables.
Proof.
  assert (H : forall a b rs,
             process_renderables b (process_renderables a rs)
             = process_renderables b rs).
  { intros a b rs. unfold process_renderables. rewrite map_map.
    apply map_ext. intros [m|i g obj|obj]; reflexivity. }
  split; [apply H|]. split; [apply H|].
  unfold process_renderables. apply length_map.
Qed.

Lemma collect_to_print (content : list pyval) :
  collect_renderables (to_print content)
  = match first_rich_error content with
    | Some e => Raises e
    | None => Returns (map laid_out content)
    end.
Proof.
  induction content as [|v content IH]; [reflexivity|].
  cbn [to_print map collect_renderables first_rich_error].
  fold (to_print content). rewrite IH.
  destruct v as [| | | | | | |cls attrs [e|]]; cbn [collect laid_out];
    try reflexivity;
    destruct (first_rich_error content); reflexivity.
Qed.







(** ** print inside show_status *)

(** X17.  A [print] that raises inside a function wrapped by [show_status]
    leaves the live display's hook on the console: the indicator's teardown
    pops the top of the stack, which is the hook [print] left behind, so the
    stack ends one hook longer than before the call, and that hook is the
    indicator's. *)
Theorem failed_print_in_status_leaves_live_hook (status_message : message)
    (exit_message : option message) (exit_message_style spinner : string)
    (content : list pyval) (indent : Z) (show_guideline : bool) (v : pyval)
    (args : list pyval) (kwargs : list (string * pyval)) (c : Console)
    (e : exn) :
  is_False (should_log args) = false ->
  first_rich_error content = Some e ->
  show_status status_message exit_message exit_message_style spinner
    (printing content indent show_guideline v) args kwargs c
  = (Raises e,
     mkConsole (_render_hooks c ++ [LiveHook (msg_val status_message) spinner])
       (written c ++
        [StatusStarted (msg_val status_message) spinner; StatusStopped])).
Proof.
  intros Hs He. unfold show_status, run_as_status. rewrite Hs.
  pose proof (collect_to_print content) as Hc. rewrite He in Hc.
  unfold with_, printing. unfold_console. rewrite Hc.
  cbn [_render_hooks written]. rewrite hooks_after_push, <- app_assoc.
  reflexivity.
Qed.

Lemma failed_print_in_status_witness :
  is_False (should_log []) = false /\
  first_rich_error [broken] = Some (Exn "RuntimeError" "cannot render") /\
  show_status (MStr (codes "running")) None "dark_sea_green1" "dots"
    (printing [broken] 4 true VNone) [] [] empty_console
  = (Raises (Exn "RuntimeError" "cannot render"),
     mkConsole [LiveHook (VStr (codes "running")) "dots"]
       [StatusStarted (VStr (codes "running")) "dots"; StatusStopped]).
Proof.
  split; [reflexivity|]. split; [reflexivity|].
  apply (failed_print_in_status_leaves_live_hook (MStr (codes "running")) None
           "dark_sea_green1" "dots" [broken] 4 true VNone [] [] empty_console
           (Exn "RuntimeError" "cannot render")); reflexivity.
Defined.

(** X18.  [show_status] itself never leaks a hook: if the wrapped function
    leaves the stack of render hooks as it finds it, so does the wrapper,
    whether the function returns or raises and whether the display is shown
    or suppressed. *)
Theorem show_status_keeps_hooks (status_message : message)
    (exit_message : option message) (exit_message_style spinner : string)
    (func : pyfunc) (args : list pyval) (kwargs : list (string * pyval))
    (c : Console) :
  (forall c0, _render_hooks (snd (func args kwargs c0)) = _render_hooks c0) ->
  _render_hooks
    (snd (show_status status_message exit_message exit_message_style spinner
            func args kwargs c))
  = _render_hooks c.
Proof.
  intros Hf. unfold show_status, run_as_status.
  destruct (is_False (should_log args)).
  - rewrite bind_ret. apply Hf.
  - unfold with_, mbind, M_bind, bind, console_print.
    pose proof (Hf (status_start (msg_val status_message) spinner c)) as H1.
    destruct (func args kwargs (status_start (msg_val status_message) spinner c))
      as [[v|e] c1]; cbn [snd] in H1.
    + rewrite collect_message. cbn [snd _render_hooks status_stop mret M_ret ret].
      rewrite H1. unfold status_start. cbn [_render_hooks]. apply hooks_after_push.
    + cbn [snd _render_hooks status_stop]. rewrite H1.
      unfold status_start. cbn [_render_hooks]. apply hooks_after_push.
Qed.

Lemma show_status_keeps_hooks_witness :
  (forall c0, _render_hooks (snd (seven [] [] c0)) = _render_hooks c0) /\
  _render_hooks
    (snd (show_status (MStr (codes "running")) None "dark_sea_green1" "dots"
            seven [] []
            (mkConsole [IndentHook (mkPrettyIndentHook 2 true)] [])))
  = [IndentHook (mkPrettyIndentHook 2 true)].
Proof.
  assert (H : forall c0, _render_hooks (snd (seven [] [] c0)) = _render_hooks c0)
    by (intros c0; reflexivity).
  split; [exact H|].
  exact (show_status_keeps_hooks (MStr (codes "running")) None "dark_sea_green1"
           "dots" seven [] []
           (mkConsole [IndentHook (mkPrettyIndentHook 2 true)] []) H).
Defined.

(** ** Escaping text without an opening bracket *)

(** Both patterns of [rich.markup] need an opening bracket behind the
    backslashes they start with. *)
Lemma escape_needs_bracket (must : bool) (pos : nat) (prev : option N)
    (rest : list N) :
  Forall (fun c => N.eqb c 91 = false) rest ->
  match_at Markup.re_escape must pos prev rest = None.
Proof.
  intros Hno. unfold match_at, Markup.re_escape. cbn [run cat].
  destruct (rep_greedy _ 0 pos prev rest [] _) as [res|] eqn:E; [|reflexivity].
  exfalso. apply rep_greedy_inv in E. destruct E as (j & _ & _ & Hk).
  apply (Forall_drop _ j) in Hno.
  destruct (drop j rest) as [|x l]; [discriminate Hk|].
  inversion Hno as [|? ? Hx _]; subst.
  change (chr "[" x) with (N.eqb x 91) in Hk. rewrite Hx in Hk.
  discriminate Hk.
Qed.

Lemma tags_need_bracket (must : bool) (pos : nat) (prev : option N)
    (rest : list N) :
  Forall (fun c => N.eqb c 91 = false) rest ->
  match_at Markup.RE_TAGS must pos prev rest = None.
Proof.
  intros Hno. unfold match_at, Markup.RE_TAGS. cbn [run cat].
  destruct (rep_greedy _ 0 pos prev rest [] _) as [res|] eqn:E; [|reflexivity].
  exfalso. apply rep_greedy_inv in E. destruct E as (j & _ & _ & Hk).
  apply (Forall_drop _ j) in Hno.
  destruct (drop j rest) as [|x l]; [discriminate Hk|].
  inversion Hno as [|? ? Hx _]; subst.
  change (chr "[" x) with (N.eqb x 91) in Hk. rewrite Hx in Hk.
  discriminate Hk.
Qed.

Lemma finditer_without_bracket (s : list N) :
  Forall (fun c => N.eqb c 91 = false) s ->
  finditer Markup.re_escape s = [] /\ finditer Markup.RE_TAGS s = [].
Proof.
  intros Hno. unfold finditer. split; apply scan_nothing; intros i must prev'.
  - apply escape_needs_bracket, Forall_drop, Hno.
  - apply tags_need_bracket, Forall_drop, Hno.
Qed.

(** X19.  A str without an opening bracket is escaped to itself, with one
    more backslash when it ends in exactly one, and the markup parser reads
    the escaped text as one piece of literal text. So a text that ends in a
    single backslash reaches the console with two. *)
Theorem escape_without_bracket (s : list N) :
  Forall (fun c => N.eqb c 91 = false) s ->
  Markup.escape s
  = s ++ (if ends_in_one_backslash s then [Markup.backslash] else []) /\
  (s <> [] ->
   Markup._parse (Markup.escape s) = [Markup.TText (Markup.escape s)]).
Proof.
  intros Hno.
  assert (He : Markup.escape s
               = s ++ (if ends_in_one_backslash s then [Markup.backslash] else [])).
  { unfold Markup.escape, Markup.sub.
    rewrite (proj1 (finditer_without_bracket s Hno)).
    cbn [Markup.sub_from]. rewrite drop_0. fold (ends_in_one_backslash s).
    destruct (ends_in_one_backslash s); [reflexivity|].
    symmetry. apply app_nil_r. }
  split; [exact He|]. intros Hne.
  assert (Hno' : Forall (fun c => N.eqb c 91 = false) (Markup.escape s)).
  { rewrite He. apply Forall_app. split; [exact Hno|].
    destruct (ends_in_one_backslash s); repeat constructor. }
  unfold Markup._parse. rewrite (proj2 (finditer_without_bracket _ Hno')).
  cbn [Markup.parse_from]. rewrite drop_0.
  replace (Nat.ltb 0 (length (Markup.escape s))) with true; [reflexivity|].
  symmetry. apply Nat.ltb_lt. rewrite He, length_app.
  destruct s; [contradiction | cbn [length]; lia].
Qed.

Lemma escape_without_bracket_witness :
  Forall (fun c => N.eqb c 91 = false) [67; 58; 92]%N /\
  Markup.escape [67; 58; 92]%N = [67; 58; 92; 92]%N /\
  Markup._parse (Markup.escape [67; 58; 92]%N)
  = [Markup.TText [67; 58; 92; 92]%N].
Proof.
  assert (Hno : Forall (fun c => N.eqb c 91 = false) [67; 58; 92]%N)
    by (repeat constructor).
  destruct (escape_without_bracket [67; 58; 92]%N Hno) as [He Hc].
  split; [exact Hno|]. split; [exact He|].
  exact (Hc ltac:(discriminate)).
Defined.

(** ** Escaping a tag *)

Lemma slice_middle (pre mid post : list N) :
  Markup.slice (pre ++ mid ++ post) (length pre) (length pre + length mid) = mid.
Proof.
  unfold Markup.slice. rewrite drop_app_length.
  replace (length pre + length mid - length pre) with (length mid) by lia.
  apply take_app_length.
Qed.

Lemma slice_front (pre post : list N) :
  Markup.slice (pre ++ post) 0 (length pre) = pre.
Proof.
  unfold Markup.slice. rewrite drop_0, Nat.sub_0_r. apply take_app_length.
Qed.

Lemma quiet_facts (x : N) :
  quiet x = true -> N.eqb x 91 = false /\ N.eqb x 92 = false.
Proof.
  unfold quiet. rewrite andb_true_iff, !negb_true_iff. tauto.
Qed.

Lemma escape_fails_at_quiet : fails_at Markup.re_escape quiet.
Proof.
  intros must pos prev x rest Hx. destruct (quiet_facts x Hx) as [H1 H2].
  unfold match_at, Markup.re_escape. cbn [run cat rep_greedy stop_here].
  unfold Markup.backslash. rewrite (N.eqb_sym 92 x), H2.
  change (chr "[" x) with (N.eqb x 91). rewrite H1. reflexivity.
Qed.

Lemma tags_fail_at_quiet : fails_at Markup.RE_TAGS quiet.
Proof.
  intros must pos prev x rest Hx. destruct (quiet_facts x Hx) as [H1 H2].
  unfold match_at, Markup.RE_TAGS. cbn [run cat rep_greedy stop_here].
  unfold Markup.backslash. rewrite (N.eqb_sym 92 x), H2.
  change (chr "[" x) with (N.eqb x 91). rewrite H1. reflexivity.
Qed.

Lemma inside_tag_facts (x : N) :
  inside_tag x = true ->
  Markup.not_open x = true /\ N.eqb x 93 = false.
Proof.
  unfold inside_tag, Markup.not_open, compl. rewrite andb_true_iff, !negb_true_iff.
  change (chr "[" x) with (N.eqb x 91). intros [-> ->]. auto.
Qed.

(** A lazy repetition stops at the first position where the rest of the
    pattern matches. *)
Lemma rep_lazy_reaches (cs : cset) (body rest : list N) (pos : nat)
    (prev : option N) (c : caps) (k : kont) (res : nat * caps) :
  Forall
    (fun x =>
       cs x = true /\ forall pos prev rest c, k pos prev (x :: rest) c = None)
    body ->
  k (pos + length body) (prev_after prev body) rest c = Some res ->
  rep_lazy cs 0 pos prev (body ++ rest) c k = Some res.
Proof.
  intros Hb Hk. rewrite rep_lazy_past by exact Hb.
  destruct rest; cbn [rep_lazy stop_here]; rewrite Hk; reflexivity.
Qed.

Lemma escape_match (a : N) (rest post : list N) (p : nat) (prev : option N) :
  Markup.tag_start a = true ->
  Forall (fun x => inside_tag x = true) rest ->
  match_at Markup.re_escape false p prev (bracketed (a :: rest) ++ post)
  = Some (Match p (p + length (bracketed (a :: rest)))
            [(2, (p, p + length (bracketed (a :: rest)))); (1, (p, p))]).
Proof.
  intros Ha Hr. unfold match_at, Markup.re_escape, bracketed.
  cbn [app]. rewrite <- app_assoc. cbn [app].
  cbn [run cat rep_greedy stop_here].
  change (N.eqb Markup.backslash 91) with false.
  change (chr "[" 91%N) with true. cbv iota. rewrite Ha.
  erewrite (rep_lazy_reaches _ rest (93%N :: post) _ _ _ _
              (p + length (91%N :: a :: rest ++ [93%N]),
               [(2, (p, p + length (91%N :: a :: rest ++ [93%N]))); (1, (p, p))])).
  - reflexivity.
  - eapply Forall_impl; [exact Hr|]. intros x Hx. cbv beta.
    destruct (inside_tag_facts x Hx) as [Ho Hc]. split; [exact Ho|].
    intros. change (chr "]" x) with (N.eqb x 93). rewrite Hc. reflexivity.
  - cbv beta. change (chr "]" 93%N) with true. cbv iota.
    cbn [accept andb length]. rewrite length_app. cbn [length].
    repeat f_equal; lia.
Qed.

Lemma tags_match (a : N) (rest post : list N) (p : nat) (prev : option N) :
  Markup.tag_start a = true ->
  Forall (fun x => inside_tag x = true) rest ->
  match_at Markup.RE_TAGS false p prev
    ((92%N :: bracketed (a :: rest)) ++ post)
  = Some (Match p (p + length (92%N :: bracketed (a :: rest)))
            [(1, (p, p + length (92%N :: bracketed (a :: rest))));
             (3, (p + 2, p + 2 + length (a :: rest)));
             (2, (p, p + 1))]).
Proof.
  intros Ha Hr. unfold match_at, Markup.RE_TAGS, bracketed.
  cbn [app]. rewrite <- app_assoc. cbn [app].
  cbn [run cat rep_greedy stop_here pred].
  change (N.eqb Markup.backslash 92) with true.
  change (N.eqb Markup.backslash 91) with false.
  change (chr "[" 91%N) with true. cbv iota. rewrite Ha.
  erewrite (rep_lazy_reaches _ rest (93%N :: post) _ _ _ _
              (p + length (92%N :: 91%N :: a :: rest ++ [93%N]),
               [(1, (p, p + length (92%N :: 91%N :: a :: rest ++ [93%N])));
                (3, (p + 2, p + 2 + length (a :: rest)));
                (2, (p, p + 1))])).
  - reflexivity.
  - eapply Forall_impl; [exact Hr|]. intros x Hx. cbv beta.
    destruct (inside_tag_facts x Hx) as [Ho Hc]. split; [exact Ho|].
    intros. change (chr "]" x) with (N.eqb x 93). rewrite Hc. reflexivity.
  - cbv beta. change (chr "]" 93%N) with true. cbv iota.
    cbn [accept andb length]. rewrite length_app. cbn [length].
    replace (S (S (S (S p)) + length rest))
      with (p + S (S (S (length rest + 1)))) by lia.
    replace (S (S (S p)) + length rest) with (p + 2 + S (length rest)) by lia.
    replace (S (S p)) with (p + 2) by lia. replace (S p) with (p + 1) by lia.
    reflexivity.
Qed.

(** One match in a line: nothing before it, nothing behind it. *)
Lemma finditer_one (r : regex) (P : N -> bool) (pre post : list N) (x : N)
    (mid : list N) (m : match_) :
  fails_at r P ->
  Forall (fun c => P c = true) pre ->
  Forall (fun c => P c = true) post ->
  (forall prev,
     match_at r false (length pre) prev ((x :: mid) ++ post) = Some m) ->
  m_end m = length pre + length (x :: mid) ->
  (forall pos prev, match_at r false pos prev [] = None) ->
  finditer r (pre ++ (x :: mid) ++ post) = [m].
Proof.
  intros Hf Hpre Hpost Hm Hend Hnil. unfold finditer.
  rewrite (scan_past r P pre _ Hf Hpre). cbn [Nat.add app].
  rewrite (scan_hit r (length pre) _ x (mid ++ post) m (length mid) (Hm _))
    by (rewrite Hend; cbn [length]; lia).
  f_equal. rewrite scan_skip.
  rewrite <- (app_nil_r post), (scan_past r P post [] Hf Hpost).
  apply scan_end, Hnil.
Qed.

Lemma escape_end (pos : nat) (prev : option N) :
  match_at Markup.re_escape false pos prev [] = None.
Proof. reflexivity. Qed.

Lemma tags_end (pos : nat) (prev : option N) :
  match_at Markup.RE_TAGS false pos prev [] = None.
Proof. reflexivity. Qed.

Lemma endswith_last (s : list N) (c : N) :
  Markup.endswith s [c] = true -> last s = Some c.
Proof.
  unfold Markup.endswith. intros H. apply bool_decide_eq_true in H.
  cbn [length] in H.
  rewrite <- (take_drop (length s - 1) s), H, last_snoc. reflexivity.
Qed.

Lemma tags_match_plain (a : N) (rest post : list N) (p : nat)
    (prev : option N) :
  Markup.tag_start a = true ->
  Forall (fun x => inside_tag x = true) rest ->
  match_at Markup.RE_TAGS false p prev (bracketed (a :: rest) ++ post)
  = Some (Match p (p + length (bracketed (a :: rest)))
            [(1, (p, p + length (bracketed (a :: rest))));
             (3, (p + 1, p + 1 + length (a :: rest)));
             (2, (p, p))]).
Proof.
  intros Ha Hr. unfold match_at, Markup.RE_TAGS, bracketed.
  cbn [app]. rewrite <- app_assoc. cbn [app].
  cbn [run cat rep_greedy stop_here pred].
  change (N.eqb Markup.backslash 91) with false.
  change (chr "[" 91%N) with true. cbv iota. rewrite Ha.
  erewrite (rep_lazy_reaches _ rest (93%N :: post) _ _ _ _
              (p + length (91%N :: a :: rest ++ [93%N]),
               [(1, (p, p + length (91%N :: a :: rest ++ [93%N])));
                (3, (p + 1, p + 1 + length (a :: rest)));
                (2, (p, p))])).
  - reflexivity.
  - eapply Forall_impl; [exact Hr|]. intros x Hx. cbv beta.
    destruct (inside_tag_facts x Hx) as [Ho Hc]. split; [exact Ho|].
    intros. change (chr "]" x) with (N.eqb x 93). rewrite Hc. reflexivity.
  - cbv beta. change (chr "]" 93%N) with true. cbv iota.
    cbn [accept andb length]. rewrite length_app. cbn [length].
    replace (S (S (S p) + length rest))
      with (p + S (S (length rest + 1))) by lia.
    replace (S (S p) + length rest) with (p + 1 + S (length rest)) by lia.
    replace (S p) with (p + 1) by lia.
    reflexivity.
Qed.

Lemma text_token_front (pre rest : list N) :
  (if Nat.ltb 0 (length pre)
   then [Markup.TText (Markup.slice (pre ++ rest) 0 (length pre))] else [])
  = text_token pre.
Proof.
  rewrite slice_front. destruct pre; reflexivity.
Qed.

Lemma text_token_back (front post : list N) :
  (if Nat.ltb (length front) (length (front ++ post))
   then [Markup.TText (drop (length front) (front ++ post))] else [])
  = text_token post.
Proof.
  rewrite drop_app_length, length_app. destruct post as [|y post].
  - rewrite Nat.add_0_r, Nat.ltb_irrefl. reflexivity.
  - replace (Nat.ltb (length front) (length front + length (y :: post)))
      with true by (symmetry; apply Nat.ltb_lt; cbn [length]; lia).
    reflexivity.
Qed.

Lemma no_backslash_at_end (front post : list N) :
  Forall (fun c => quiet c = true) post ->
  Markup.endswith ((front ++ [93%N]) ++ post) [Markup.backslash] = false.
Proof.
  intros Hpost.
  destruct (Markup.endswith ((front ++ [93%N]) ++ post) [Markup.backslash])
    eqn:E; [|reflexivity].
  exfalso. apply endswith_last in E. rewrite last_app in E.
  destruct (last post) as [y|] eqn:Hy.
  - injection E as ->. apply last_Some in Hy. destruct Hy as [l' ->].
    apply Forall_app in Hpost. destruct Hpost as [_ Hq].
    inversion Hq as [|? ? Hq' _]; subst. discriminate Hq'.
  - rewrite last_snoc in E. discriminate E.
Qed.

(** X20.  A tag in text without brackets and backslashes: [escape] puts one
    backslash before the tag and changes nothing else, and the markup parser
    then reads the whole as literal text, the tag included, where it reads a
    tag in the text as it was. *)
Theorem escape_neutralises_tag (pre post : list N) (a : N) (rest : list N) :
  Forall (fun c => quiet c = true) pre ->
  Forall (fun c => quiet c = true) post ->
  Markup.tag_start a = true ->
  Forall (fun x => inside_tag x = true) rest ->
  Markup.escape (pre ++ bracketed (a :: rest) ++ post)
  = pre ++ [92%N] ++ bracketed (a :: rest) ++ post /\
  Markup._parse (Markup.escape (pre ++ bracketed (a :: rest) ++ post))
  = text_token pre ++ [Markup.TText (bracketed (a :: rest))] ++ text_token post /\
  Markup._parse (pre ++ bracketed (a :: rest) ++ post)
  = text_token pre ++ [Markup.TTag (a :: rest)] ++ text_token post.
Proof.
  intros Hpre Hpost Ha Hr.
  set (tag := a :: rest). 
  (* the one match of the escape pattern *)
  assert (F1 : finditer Markup.re_escape (pre ++ bracketed tag ++ post)
               = [Match (length pre) ((length pre) + length (bracketed tag))
                    [(2, ((length pre), (length pre) + length (bracketed tag))); (1, ((length pre), (length pre)))]]).
  { apply (finditer_one Markup.re_escape quiet pre post 91 (tag ++ [93%N]) _
             escape_fails_at_quiet Hpre Hpost).
    - intros prev. exact (escape_match a rest post (length pre) prev Ha Hr).
    - reflexivity.
    - exact escape_end. }
  assert (E : Markup.escape (pre ++ bracketed tag ++ post)
              = pre ++ [92%N] ++ bracketed tag ++ post).
  { unfold Markup.escape, Markup.sub. rewrite F1.
    cbn [Markup.sub_from m_start m_end]. unfold Markup.escape_backslashes,
      Markup.group_text. cbn [m_caps group_span Nat.eqb].
    rewrite slice_front. rewrite slice_middle.
    replace (Markup.slice (pre ++ bracketed tag ++ post) (length pre) (length pre)) with (@nil N)
      by (unfold Markup.slice; rewrite Nat.sub_diag; reflexivity).
    replace (drop ((length pre) + length (bracketed tag)) (pre ++ bracketed tag ++ post))
      with post
      by (rewrite app_assoc, drop_app_length'; [reflexivity | symmetry; apply length_app]).
    cbn [app].
    replace (pre ++ Markup.backslash :: bracketed tag ++ post)
      with (((pre ++ Markup.backslash :: 91%N :: tag) ++ [93%N]) ++ post)
      by (unfold bracketed; cbn [app]; rewrite <- !app_assoc; reflexivity).
    rewrite no_backslash_at_end by exact Hpost. cbn [andb].
    unfold bracketed. cbn [app]. rewrite <- !app_assoc. reflexivity. }
  split; [exact E|]. split.
  - rewrite E. unfold Markup._parse.
    assert (F2 : finditer Markup.RE_TAGS (pre ++ [92%N] ++ bracketed tag ++ post)
                 = [Match (length pre) ((length pre) + length (92%N :: bracketed tag))
                      [(1, ((length pre), (length pre) + length (92%N :: bracketed tag)));
                       (3, ((length pre) + 2, (length pre) + 2 + length tag));
                       (2, ((length pre), (length pre) + 1))]]).
    { apply (finditer_one Markup.RE_TAGS quiet pre post 92 (bracketed tag) _
               tags_fail_at_quiet Hpre Hpost).
      - intros prev. exact (tags_match a rest post (length pre) prev Ha Hr).
      - reflexivity.
      - exact tags_end. }
    rewrite F2. cbn [Markup.parse_from m_start m_end].
    unfold Markup.group_text. cbn [m_caps group_span Nat.eqb].
    rewrite text_token_front.
    replace (Markup.slice (pre ++ [92%N] ++ bracketed tag ++ post) (length pre) ((length pre) + 1))
      with [92%N]
      by (symmetry; apply (slice_middle pre [92%N] (bracketed tag ++ post))).
    replace (Markup.slice (pre ++ [92%N] ++ bracketed tag ++ post) (length pre)
               ((length pre) + length (92%N :: bracketed tag)))
      with (92%N :: bracketed tag)
      by (symmetry; apply (slice_middle pre (92%N :: bracketed tag) post)).
    cbn [length Nat.div Nat.modulo Nat.divmod fst snd Nat.sub drop app].
    replace (pre ++ 92%N :: bracketed tag ++ post)
      with ((pre ++ 92%N :: bracketed tag) ++ post)
      by (rewrite <- app_assoc; reflexivity).
    replace ((length pre) + S (length (bracketed tag)))
      with (length (pre ++ 92%N :: bracketed tag))
      by (rewrite length_app; reflexivity).
    rewrite text_token_back. reflexivity.
  - unfold Markup._parse.
    assert (F3 : finditer Markup.RE_TAGS (pre ++ bracketed tag ++ post)
                 = [Match (length pre) ((length pre) + length (bracketed tag))
                      [(1, ((length pre), (length pre) + length (bracketed tag)));
                       (3, ((length pre) + 1, (length pre) + 1 + length tag));
                       (2, ((length pre), (length pre)))]]).
    { apply (finditer_one Markup.RE_TAGS quiet pre post 91 (tag ++ [93%N]) _
               tags_fail_at_quiet Hpre Hpost).
      - intros prev. exact (tags_match_plain a rest post (length pre) prev Ha Hr).
      - reflexivity.
      - exact tags_end. }
    rewrite F3. cbn [Markup.parse_from m_start m_end].
    unfold Markup.group_text. cbn [m_caps group_span Nat.eqb].
    rewrite text_token_front.
    replace (Markup.slice (pre ++ bracketed tag ++ post) (length pre) (length pre)) with (@nil N)
      by (unfold Markup.slice; rewrite Nat.sub_diag; reflexivity).
    replace (Markup.slice (pre ++ bracketed tag ++ post) ((length pre) + 1)
               ((length pre) + 1 + length tag))
      with tag.
    2:{ symmetry. unfold bracketed.
        replace (pre ++ ([91%N] ++ tag ++ [93%N]) ++ post)
          with ((pre ++ [91%N]) ++ tag ++ ([93%N] ++ post))
          by (rewrite <- !app_assoc; reflexivity).
        replace ((length pre) + 1) with (length (pre ++ [91%N]))
          by (rewrite length_app; reflexivity).
        apply slice_middle. }
    cbn [length Nat.div Nat.modulo Nat.divmod fst snd app].
    replace (pre ++ bracketed tag ++ post)
      with ((pre ++ bracketed tag) ++ post)
      by (rewrite <- app_assoc; reflexivity).
    replace ((length pre) + length (bracketed tag))
      with (length (pre ++ bracketed tag))
      by (rewrite length_app; reflexivity).
    rewrite text_token_back. reflexivity.
Qed.

Lemma escape_neutralises_tag_witness :
  Markup.escape (codes "say [bold red]hi") = codes "say \[bold red]hi" /\
  Markup._parse (Markup.escape (codes "say [bold red]hi"))
  = [Markup.TText (codes "say "); Markup.TText (codes "[bold red]");
     Markup.TText (codes "hi")].
Proof.
  assert (Hpre : Forall (fun c => quiet c = true) (codes "say "))
    by (repeat constructor).
  assert (Hpost : Forall (fun c => quiet c = true) (codes "hi"))
    by (repeat constructor).
  assert (Hr : Forall (fun x => inside_tag x = true) (codes "old red"))
    by (repeat constructor).
  destruct (escape_neutralises_tag (codes "say ") (codes "hi") 98
              (codes "old red") Hpre Hpost eq_refl Hr) as (H1 & H2 & _).
  split; [exact H1 | exact H2].
Defined.
